(** * Market-concentration page: scorer and selector

    Shallow embedding of [views/market_monopoly_page.py]: the segment scorer
    [_get_score_records] (HHI and dispersion per (city, bin) segment) and the
    segment selector [_get_selected_score_records], with the part of
    [render_page] that consumes the selection.

    Numbers.  Python [int] is [Z].  A float64 cell is an [fval]: an exact
    rational, one of the two infinities, or NaN.  The special values follow
    IEEE-754 / pandas (division by zero gives NaN or an infinity and never
    raises, comparisons with NaN are false, reductions skip NaN); rounding of
    finite values is not modelled, finite arithmetic is exact. *)

From Stdlib Require Import ZArith QArith Qfield Qround List Bool String Ascii.
From Stdlib Require Import Lia.
From Stdlib Require Import Sorted Permutation.
Import ListNotations.

Local Open Scope string_scope.
Local Open Scope list_scope.
Local Open Scope Z_scope.

(** ** float64 cells *)

Module F.

Inductive fval : Type :=
| FNum (q : Q)
| FInf (negative : bool)
| FNaN.

Definition of_int (z : Z) : fval := FNum (inject_Z z).

Definition is_nan (x : fval) : bool :=
  match x with FNaN => true | _ => false end.

Definition is_finite (x : fval) : bool :=
  match x with FNum _ => true | _ => false end.

(** Sign of a rational as a comparison with zero. *)
Definition qsign (q : Q) : comparison := (q ?= 0)%Q.

Definition add (x y : fval) : fval :=
  match x, y with
  | FNaN, _ | _, FNaN => FNaN
  | FNum a, FNum b => FNum (a + b)
  | FInf s, FNum _ | FNum _, FInf s => FInf s
  | FInf s, FInf t => if Bool.eqb s t then FInf s else FNaN
  end.

Definition neg (x : fval) : fval :=
  match x with
  | FNum a => FNum (- a)
  | FInf s => FInf (negb s)
  | FNaN => FNaN
  end.

Definition sub (x y : fval) : fval := add x (neg y).

(** [inf_times s q]: an infinity of sign [s] scaled by the finite [q]. *)
Definition inf_times (s : bool) (q : Q) : fval :=
  match qsign q with
  | Eq => FNaN
  | Gt => FInf s
  | Lt => FInf (negb s)
  end.

Definition mul (x y : fval) : fval :=
  match x, y with
  | FNaN, _ | _, FNaN => FNaN
  | FNum a, FNum b => FNum (a * b)
  | FInf s, FNum q | FNum q, FInf s => inf_times s q
  | FInf s, FInf t => FInf (xorb s t)
  end.

(** True division.  A zero divisor does not raise: it gives NaN for a zero
    numerator and an infinity of the numerator's sign otherwise. *)
Definition div (x y : fval) : fval :=
  match x, y with
  | FNaN, _ | _, FNaN => FNaN
  | FNum a, FNum b =>
      match qsign b with
      | Eq => match qsign a with
              | Eq => FNaN
              | Gt => FInf false
              | Lt => FInf true
              end
      | _ => FNum (a / b)
      end
  | FNum _, FInf _ => FNum 0
  | FInf s, FNum b =>
      match qsign b with
      | Lt => FInf (negb s)
      | _ => FInf s
      end
  | FInf _, FInf _ => FNaN
  end.

(** [x ** 2]. *)
Definition sq (x : fval) : fval := mul x x.

(** Python's [<] on floats: false as soon as one side is NaN. *)
Definition ltb (x y : fval) : bool :=
  match x, y with
  | FNaN, _ | _, FNaN => false
  | FNum a, FNum b => match (a ?= b)%Q with Lt => true | _ => false end
  | FNum _, FInf s => negb s
  | FInf s, FNum _ => s
  | FInf s, FInf t => s && negb t
  end.

(** Python's [==] on floats. *)
Definition eqb (x y : fval) : bool :=
  match x, y with
  | FNum a, FNum b => Qeq_bool a b
  | FInf s, FInf t => Bool.eqb s t
  | _, _ => false
  end.

(** [x <= y] for numbers, read as "not [y < x]". *)
Definition le (x y : fval) : Prop := ltb y x = false.

(** pandas [Series.sum()]: NaN cells are skipped, the empty sum is 0. *)
Definition sum (xs : list fval) : fval :=
  fold_left add (filter (fun x => negb (is_nan x)) xs) (FNum 0).

(** The square root of a float, kept symbolic: [Root v] is [sqrt v], which is
    NaN exactly when [v] is. *)
Inductive froot : Type := Root (radicand : fval).

Definition root_is_nan (r : froot) : bool :=
  match r with Root v => is_nan v end.

(** pandas [std] (default [ddof=1]) of the cells of one group: NaN cells are
    skipped, and fewer than two cells leave the result NaN. *)
Definition std (xs : list fval) : froot :=
  let vs := filter (fun x => negb (is_nan x)) xs in
  let k := Z.of_nat (List.length vs) in
  if k <=? 1 then Root FNaN
  else
    let mean := div (sum vs) (of_int k) in
    Root (div (sum (map (fun x => sq (sub x mean)) vs)) (of_int (k - 1))).

End F.

(** ** Python's [sorted] *)

Section Sorted.
Context {A K : Type}.
Variable key : A -> K.
Variable lt : K -> K -> bool.

(** [x] enters the sorted list in front of the first element that is not
    smaller than it; only [<] on keys is used, as in [list.sort]. *)
Fixpoint insert_sorted (x : A) (l : list A) : list A :=
  match l with
  | [] => [x]
  | y :: t =>
      if lt (key y) (key x) then y :: insert_sorted x t else x :: y :: t
  end.

(** [sorted(l, key=key)]: a stable sort. *)
Definition sorted (l : list A) : list A :=
  fold_right insert_sorted [] l.

(** [sorted(l, key=key, reverse=True)]: the list is reversed, sorted and
    reversed back, which keeps equal keys in their original order. *)
Definition sorted_reverse (l : list A) : list A :=
  rev (sorted (rev l)).

(** [a] may stand before [b] in increasing order. *)
Definition increasing (a b : A) : Prop := lt (key b) (key a) = false.

(** [a] may stand before [b] in decreasing order. *)
Definition decreasing (a b : A) : Prop := lt (key a) (key b) = false.

End Sorted.

(** [output] is [input] sorted stably: the same records, in an order where
    [before] holds from each record to every later one, and with the records
    of any one key in the order they had in [input]. *)
Definition stable_sort_of {A K : Type} (key : A -> K) (keq : K -> K -> bool)
  (before : A -> A -> Prop) (input output : list A) : Prop :=
  Permutation input output
  /\ StronglySorted before output
  /\ forall k, filter (fun r => keq (key r) k) output
               = filter (fun r => keq (key r) k) input.

(** ** Data model *)

(** A loan record of the prepared dataset, after [pd.to_numeric(...,
    errors="coerce")]: a value that is not a number has become NaN. *)
Module Loan.
Record t : Type := mk {
  city : string;
  loanAmount : F.fval;
  lender : string
}.
End Loan.

(** A row of the lender aggregator's result. *)
Module Row.
Record t : Type := mk {
  lender : string;
  loan_amount_bin : string;
  num_loans : Z
}.
End Row.

(** The dictionaries appended to [score_records]. *)
Module Score.
Record t : Type := mk {
  city : string;
  loan_amount_bin : string;
  bin_num_loans : Z;
  bin_num_loans_pct_std_dev : F.froot;
  hhi : F.fval
}.
End Score.

Definition CITY_NUM_LOANS_MIN_THREASHOLD : Z := 10.
Definition BIN_NUM_LOANS_MIN_THREASHOLD : Z := 10.
Definition HIGH_HHI_SEGMENT : string :=
  "Top 10 Segments by Market Concentration".
Definition LOW_HHI_SEGMENT : string :=
  "Top 10 Most Fragmented Market Segments".
Definition ALL_SEGMENT : string := "All Market Segments".

(** ** The selector *)

Definition order_map : list (string * Z) :=
  [ ("$5M - $10M", 1);
    ("$2.5M - $5M", 2);
    ("$1M - $2.5M", 3);
    ("$500K - $1M", 4);
    ("$250K - $500K", 5);
    ("$100K - $250K", 6);
    ("$50K - $100K", 7);
    ("$0 - $50K", 8) ].

(** [d.get(k, default)] on a dictionary given by its items. *)
Fixpoint dict_get {V : Type} (d : list (string * V)) (k : string) (default : V)
  : V :=
  match d with
  | [] => default
  | (k', v) :: rest => if String.eqb k' k then v else dict_get rest k default
  end.

(** The sort key of the last branch. *)
Definition order_key (x : Score.t) : Z :=
  dict_get order_map (Score.loan_amount_bin x) 999.

(** The comprehension that opens the selector. *)
Definition filtered_records (score_records : list Score.t)
  (selected_min_num_loans : Z) : list Score.t :=
  filter (fun record => selected_min_num_loans <=? Score.bin_num_loans record)
         score_records.

Definition _get_selected_score_records (score_records : list Score.t)
  (selected_min_num_loans : Z) (market_category : string) : list Score.t :=
  let filtered_records :=
    filtered_records score_records selected_min_num_loans in
  if String.eqb market_category HIGH_HHI_SEGMENT then
    let sorted_records := sorted_reverse Score.hhi F.ltb filtered_records in
    firstn 10 sorted_records
  else if String.eqb market_category LOW_HHI_SEGMENT then
    let sorted_records := sorted Score.hhi F.ltb filtered_records in
    firstn 10 sorted_records
  else
    let sorted_records := sorted order_key Z.ltb filtered_records in
    sorted_records.

(** ** The caller's use of the selection

    What [render_page] shows once the selection is made, as the sequence of
    page elements it emits; [show_chart_data] is the state of the toggle. *)
Inductive element : Type :=
| Info (name : string)
| Spacer
| Heading (title : string)
| Metrics (records : list Score.t)
| StackedBar (records : list Score.t)
| Toggle (label : string)
| ChartData (records : list Score.t)
| InfoStackedBar (category : string)
| Footer.

Definition render_selection (selected_score_records : list Score.t)
  (selected_hhi_category : string) (show_chart_data : bool) : list element :=
  match selected_score_records with
  | [] => [Info "no_data_selected"; Footer]
  | _ =>
      [Spacer; Heading selected_hhi_category;
       Spacer; Metrics selected_score_records;
       Spacer; StackedBar selected_score_records;
       Toggle "Show Chart Data"]
      ++ (if show_chart_data then [ChartData selected_score_records] else [])
      ++ [InfoStackedBar selected_hhi_category; Footer]
  end.

(** ** The scorer *)

(** Rows of the per-city frame.  [Frame.row] is a row once the columns
    [bin_num_loans] and [lender_num_loans_pct] exist, [Frame.scored] a row
    once [bin_num_loans_pct_std_dev] is added. *)
Module Frame.
Record row : Type := mk {
  lender : string;
  loan_amount_bin : string;
  num_loans : Z;
  bin_num_loans : Z;
  lender_num_loans_pct : F.fval
}.
Record scored : Type := mks {
  base : row;
  bin_num_loans_pct_std_dev : F.froot
}.
End Frame.

Definition Zsum (l : list Z) : Z := fold_right Z.add 0 l.

(** [groupby("loan_amount_bin", observed=True)] on a categorical column.  The
    groups come in the order of the categories and a category without rows has
    no group; a row whose label is no category has a missing bin and belongs
    to no group. *)
Section GroupBy.
Context {R : Type}.
Variable label : R -> string.

Definition group (frame : list R) (b : string) : list R :=
  filter (fun r => String.eqb (label r) b) frame.

Definition groupby (categories : list string) (frame : list R)
  : list (string * list R) :=
  flat_map (fun b => match group frame b with
                     | [] => []
                     | g => [(b, g)]
                     end) categories.

End GroupBy.

(** [series[key]]: [None] stands for the [KeyError] of a missing key. *)
Fixpoint series_get {V : Type} (s : list (string * V)) (k : string)
  : option V :=
  match s with
  | [] => None
  | (k', v) :: rest => if String.eqb k' k then Some v else series_get rest k
  end.

(** A [for] loop whose body may raise and otherwise appends records. *)
Fixpoint for_each {X Y : Type} (body : X -> option (list Y)) (xs : list X)
  : option (list Y) :=
  match xs with
  | [] => Some []
  | x :: rest =>
      match body x with
      | None => None
      | Some ys =>
          match for_each body rest with
          | None => None
          | Some zs => Some (ys ++ zs)
          end
      end
  end.

(** The columns [bin_num_loans] (the [transform("sum")] of [num_loans] over
    the row's bin) and [lender_num_loans_pct], computed for every row of the
    aggregator's frame. *)
Definition add_lender_num_loans_pct (rows : list Row.t) : list Frame.row :=
  map (fun r =>
         let bin_num_loans :=
           Zsum (map Row.num_loans
                     (group Row.loan_amount_bin rows
                            (Row.loan_amount_bin r))) in
         Frame.mk (Row.lender r) (Row.loan_amount_bin r) (Row.num_loans r)
           bin_num_loans
           (F.mul (F.div (F.of_int (Row.num_loans r)) (F.of_int bin_num_loans))
                  (F.of_int 100)))
      rows.

(** The boolean-mask selection on [bin_num_loans]. *)
Definition keep_min_bin_num_loans (frame : list Frame.row) : list Frame.row :=
  filter (fun r => BIN_NUM_LOANS_MIN_THREASHOLD <=? Frame.bin_num_loans r)
         frame.

(** The column [bin_num_loans_pct_std_dev]: [transform("std")] over the
    row's bin. *)
Definition add_std_dev (frame : list Frame.row) : list Frame.scored :=
  map (fun r =>
         Frame.mks r
           (F.std (map Frame.lender_num_loans_pct
                       (group Frame.loan_amount_bin frame
                              (Frame.loan_amount_bin r)))))
      frame.

Definition scored_bin (r : Frame.scored) : string :=
  Frame.loan_amount_bin (Frame.base r).

(** [hhi_by_bin]: the series of [(x**2).sum()] per bin. *)
Definition hhi_by_bin (categories : list string) (frame : list Frame.scored)
  : list (string * F.fval) :=
  map (fun bg : string * list Frame.scored =>
         (fst bg,
          F.sum (map (fun r => F.sq (Frame.lender_num_loans_pct (Frame.base r)))
                     (snd bg))))
      (groupby scored_bin categories frame).

(** The body of the loop over the cities, for the frame the aggregator
    returned for [city]. *)
Definition score_city (categories : list string) (city : string)
  (lender_to_loan_amount_bins : list Row.t) : option (list Score.t) :=
  let frame := add_lender_num_loans_pct lender_to_loan_amount_bins in
  let frame := keep_min_bin_num_loans frame in
  let frame := add_std_dev frame in
  let hhi_by_bin := hhi_by_bin categories frame in
  for_each
    (fun bg : string * list Frame.scored =>
       let bin_value := fst bg in
       match snd bg with
       | [] => Some []
       | first :: _ =>
           let std_dev := Frame.bin_num_loans_pct_std_dev first in
           let bin_num_loans := Frame.bin_num_loans (Frame.base first) in
           match series_get hhi_by_bin bin_value with
           | None => None
           | Some hhi =>
               Some [Score.mk city bin_value bin_num_loans std_dev hhi]
           end
       end)
    (groupby scored_bin categories frame).

(** The rows of [df[df["city"].isin(above_threshold_cities)]]. *)
Definition listed_rows (df : list Loan.t) (above_threshold_cities : list string)
  : list Loan.t :=
  filter (fun l => existsb (String.eqb (Loan.city l)) above_threshold_cities)
         df.

(** The keys of [groupby("city")]: the cities of the rows, each once, in
    increasing order. *)
Definition city_keys (df : list Loan.t) : list string :=
  nodup string_dec (sorted (fun c : string => c) String.ltb (map Loan.city df)).

(** The group of [city] in [groupby("city")]. *)
Definition city_group (df : list Loan.t) (city : string) : list Loan.t :=
  filter (fun l => String.eqb (Loan.city l) city) df.

(** The dictionary [city_to_df], by its items in insertion order. *)
Definition city_to_df (df : list Loan.t) (above_threshold_cities : list string)
  : list (string * list Loan.t) :=
  let listed := listed_rows df above_threshold_cities in
  map (fun city => (city, city_group listed city)) (city_keys listed).

Section Scorer.

(** The table [BIN_EDGE_TO_LABEL] of [utils/market_share_stacked_bar.py],
    given by its items (upper edge, label). *)
Variable BIN_EDGE_TO_LABEL : list (Z * string).

(** The lender aggregator of [utils/lender.py]. *)
Variable get_lender_to_loan_amount_bins :
  list Loan.t -> list Z -> list string -> list Row.t.

Definition bin_edges : list Z :=
  0 :: sorted (fun e : Z => e) Z.ltb (map fst BIN_EDGE_TO_LABEL).

(** The labels in the order of their edges: the items are sorted by edge and
    the labels read off. *)
Definition bin_labels : list string :=
  map snd (sorted (fun item : Z * string => fst item) Z.ltb BIN_EDGE_TO_LABEL).

(** The aggregator's frame for [city_df]. *)
Definition lender_rows (city_df : list Loan.t) : list Row.t :=
  get_lender_to_loan_amount_bins city_df bin_edges bin_labels.

Definition _get_score_records (df : list Loan.t)
  (above_threshold_cities : list string) : option (list Score.t) :=
  for_each (fun item : string * list Loan.t =>
              let city := fst item in
              let city_df := snd item in
              score_city bin_labels city (lender_rows city_df))
           (city_to_df df above_threshold_cities).

(** The aggregator's frame for the city [city] of the listed rows. *)
Definition city_rows (df : list Loan.t) (above_threshold_cities : list string)
  (city : string) : list Row.t :=
  lender_rows (city_group (listed_rows df above_threshold_cities) city).

End Scorer.

(** ** The lender aggregator *)

(** Modelled from the spec: the bin classifier behind
    [get_lender_to_loan_amount_bins], whose module [utils/lender.py] is not
    among the sources.  An amount falls into the bin whose range
    [lower, upper) holds it, an amount on an edge into the bin that starts
    there; an amount outside every range falls into no bin. *)
Fixpoint cut (amount : Q) (edges : list Z) (labels : list string)
  : option string :=
  match edges, labels with
  | lower :: ((upper :: _) as rest), label :: others =>
      if Qle_bool (inject_Z lower) amount
         && negb (Qle_bool (inject_Z upper) amount)
      then Some label
      else cut amount rest others
  | _, _ => None
  end.

(** Modelled from the spec: a loan whose amount is missing (not a number)
    contributes to no bin. *)
Definition loan_bin (l : Loan.t) (edges : list Z) (labels : list string)
  : option string :=
  match Loan.loanAmount l with
  | F.FNum amount => cut amount edges labels
  | _ => None
  end.

(** Modelled from the spec: one more loan of [lender] in [bin]. *)
Fixpoint count_loan (lender bin : string) (rows : list Row.t) : list Row.t :=
  match rows with
  | [] => [Row.mk lender bin 1]
  | r :: rest =>
      if String.eqb (Row.lender r) lender
         && String.eqb (Row.loan_amount_bin r) bin
      then Row.mk lender bin (Row.num_loans r + 1) :: rest
      else r :: count_loan lender bin rest
  end.

(** Modelled from the spec: the lender aggregator
    [get_lender_to_loan_amount_bins] of [utils/lender.py], which is not among
    the sources.  It returns one row per (lender, bin) pair present in the
    records, with its loan count; a pair without loans gives no row. *)
Definition lender_aggregator (df : list Loan.t) (edges : list Z)
  (labels : list string) : list Row.t :=
  fold_left (fun rows l =>
               match loan_bin l edges labels with
               | Some bin => count_loan (Loan.lender l) bin rows
               | None => rows
               end)
            df [].

(** Modelled from the spec: the eight bins of [BIN_EDGE_TO_LABEL], keyed by
    upper edge; the labels are those of [order_map]. *)
Definition bin_edge_to_label : list (Z * string) :=
  [ (50000, "$0 - $50K");
    (100000, "$50K - $100K");
    (250000, "$100K - $250K");
    (500000, "$250K - $500K");
    (1000000, "$500K - $1M");
    (2500000, "$1M - $2.5M");
    (5000000, "$2.5M - $5M");
    (10000000, "$5M - $10M") ].

(** ** The scorer as the spec words it *)

Definition Qsum (l : list Q) : Q := fold_right Qplus 0%Q l.

(** [lender_share_pct = lender_num_loans / bin_num_loans × 100]. *)
Definition lender_share_pct (lender_num_loans bin_num_loans : Z) : Q :=
  (inject_Z lender_num_loans / inject_Z bin_num_loans * 100)%Q.

(** The shares of a segment given by its lenders' loan counts. *)
Definition shares (counts : list Z) : list Q :=
  map (fun n => lender_share_pct n (Zsum counts)) counts.

(** [hhi = Σ lender_share_pct²]. *)
Definition hhi_spec (counts : list Z) : Q :=
  Qsum (map (fun s => s * s)%Q (shares counts)).

(** Exactly one lender of the segment holds a share of 100. *)
Definition one_lender_holds_all (counts : list Z) : Prop :=
  List.length (filter (fun s => Qeq_bool s 100) (shares counts)) = 1%nat.

(** The sample variance (denominator N - 1) of a list of numbers; the
    standard deviation is its square root. *)
Definition sample_variance (xs : list Q) : Q :=
  let k := inject_Z (Z.of_nat (List.length xs)) in
  let mean := (Qsum xs / k)%Q in
  (Qsum (map (fun x => (x - mean) * (x - mean)) xs) / (k - 1))%Q.

(** The loan counts of the lenders of the segment ([city], [bin]). *)
Definition segment_counts (rows : list Row.t) (bin : string) : list Z :=
  map Row.num_loans (group Row.loan_amount_bin rows bin).

(** The score record of the segment ([city], [bin]) as the spec words it:
    the total of the lenders' loan counts, the dispersion of their shares and
    the sum of their squared shares.  [rows] are the city's lender-bin
    rows. *)
Definition segment_record (city : string) (rows : list Row.t) (bin : string)
  : Score.t :=
  let counts := segment_counts rows bin in
  Score.mk city bin (Zsum counts)
    (F.std (map F.FNum (shares counts)))
    (F.sum (map (fun s => F.FNum (s * s)) (shares counts))).

(** ** A sample dataset

    City DOVER with fifteen loans: twelve in one bin, eight of lender A and
    four of lender B, and three of lender B in the lowest bin; city SALEM with
    twelve loans of a single lender in one bin; city LYNN with three loans,
    below the city threshold and so not among the listed cities. *)
Definition loan (city : string) (amount : Z) (lender : string) : Loan.t :=
  Loan.mk city (F.of_int amount) lender.

Definition sample_df : list Loan.t :=
  repeat (loan "DOVER" 150000 "A") 8
  ++ repeat (loan "DOVER" 200000 "B") 4
  ++ repeat (loan "DOVER" 30000 "B") 3
  ++ repeat (loan "SALEM" 60000 "C") 12
  ++ repeat (loan "LYNN" 150000 "A") 3.

Definition sample_cities : list string := ["DOVER"; "SALEM"].

(** The aggregator's frame for DOVER. *)
Definition dover_rows : list Row.t :=
  city_rows bin_edge_to_label lender_aggregator sample_df sample_cities "DOVER".

(** The score records of the sample. *)
Definition sample_records : list Score.t :=
  [ Score.mk "DOVER" "$100K - $250K" 12
      (F.Root (F.FNum (79254226206720000 # 142657607172096)))
      (F.FNum (115200000 # 20736));
    Score.mk "SALEM" "$50K - $100K" 12 (F.Root F.FNaN)
      (F.FNum (1440000 # 144)) ].

(** ** The selector as the spec words it *)

(** The canonical bin order, from the largest bin to the smallest. *)
Definition canonical_bins : list string :=
  [ "$5M - $10M"; "$2.5M - $5M"; "$1M - $2.5M"; "$500K - $1M";
    "$250K - $500K"; "$100K - $250K"; "$50K - $100K"; "$0 - $50K" ].

(** The place of [bin] in a list of bins, counted from [start]; a bin that is
    not listed comes last, at 999. *)
Fixpoint rank_from (start : Z) (bins : list string) (bin : string) : Z :=
  match bins with
  | [] => 999
  | b :: rest =>
      if String.eqb b bin then start else rank_from (start + 1) rest bin
  end.

Definition canonical_rank (bin : string) : Z := rank_from 1 canonical_bins bin.

(** The place of a record in the canonical order: the place of its bin. *)
Definition canonical_key (r : Score.t) : Z :=
  canonical_rank (Score.loan_amount_bin r).

(** Sample score records: eleven segments.  Ten have ten loans of a single
    lender, hence an HHI of 10000; one has twenty loans shared evenly by two
    lenders, hence an HHI of 5000. *)
Definition small_segment (city : string) : Score.t :=
  Score.mk city "$100K - $250K" 10 (F.Root F.FNaN) (F.FNum 10000).

Definition large_segment : Score.t :=
  Score.mk "SALEM" "$0 - $50K" 20 (F.Root (F.FNum 0)) (F.FNum 5000).

Definition eleven_segments : list Score.t :=
  map small_segment
      ["ACTON"; "BEDFORD"; "CANTON"; "DOVER"; "EASTON";
       "FRANKLIN"; "GRAFTON"; "HOLDEN"; "IPSWICH"; "LYNN"]
  ++ [large_segment].

(** Sample score records with a tie in HHI and an unlisted bin label. *)
Definition tied_segments : list Score.t :=
  [ Score.mk "DOVER" "$0 - $50K" 12 (F.Root F.FNaN) (F.FNum 10000);
    Score.mk "SALEM" "other" 30 (F.Root (F.FNum 2)) (F.FNum 2500);
    Score.mk "LYNN" "$5M - $10M" 15 (F.Root F.FNaN) (F.FNum 10000);
    Score.mk "SALEM" "$50K - $100K" 11 (F.Root (F.FNum 8))
      (F.FNum (5000 # 2)) ].


(** ** Exceptions *)

(** The exceptions the page can raise. *)
Inductive exn : Type :=
| KeyError
| ValueError
| StopIteration.

Inductive result (A : Type) : Type :=
| Ok (a : A)
| Raise (e : exn).

Arguments Ok {A} a.
Arguments Raise {A} e.

(** ** The city threshold *)

(** A line printed to standard output by [_get_above_threshold_df]: the
    notice, then one line "city: loan_count" per disregarded city. *)
Inductive stdout_line : Type :=
| DisregardNotice (threshold : Z)
| CityLoanCount (city : string) (loan_count : Z).

(** [df.groupby("city").size()] after [reset_index()]: one row
    (city, loan_count) per city, in the order of the keys. *)
Definition city_loan_counts (df : list Loan.t) : list (string * Z) :=
  map (fun city => (city, Z.of_nat (List.length (city_group df city))))
      (city_keys df).

(** The printed lines and the returned frame. *)
Definition _get_above_threshold_df (df : list Loan.t)
  : list stdout_line * list (string * Z) :=
  let city_loan_counts := city_loan_counts df in
  let below_threshold :=
    filter (fun row => snd row <? CITY_NUM_LOANS_MIN_THREASHOLD)
           city_loan_counts in
  let above_or_equal_threshold :=
    filter (fun row => CITY_NUM_LOANS_MIN_THREASHOLD <=? snd row)
           city_loan_counts in
  (DisregardNotice CITY_NUM_LOANS_MIN_THREASHOLD
     :: map (fun row => CityLoanCount (fst row) (snd row)) below_threshold,
   above_or_equal_threshold).

(** [list(above_threshold_df["city"])], as [render_page] takes it. *)
Definition above_threshold_cities_of (df : list Loan.t) : list string :=
  map fst (snd (_get_above_threshold_df df)).

(** ** The slider *)

(** Python's [max] of a sequence of ints: the first item is kept until a
    greater one comes; an empty sequence raises [ValueError]. *)
Definition max_int (l : list Z) : result Z :=
  match l with
  | [] => Raise ValueError
  | x :: t => Ok (fold_left (fun m y => if m <? y then y else m) t x)
  end.

(** The arguments [_show_slider] passes to [st.slider]. *)
Record slider : Type := mk_slider {
  min_value : Z;
  max_value : Z;
  default_value : Z;
  step : Z
}.

(** [_show_slider] up to the call of the widget.  [math.ceil(m / 10)] is
    the ceiling of the quotient. *)
Definition slider_of (score_records : list Score.t) : result slider :=
  match max_int (map Score.bin_num_loans score_records) with
  | Raise e => Raise e
  | Ok max_bin_num_loans =>
      let max_value := Qceiling (inject_Z max_bin_num_loans / 10) * 10 in
      let min_value := BIN_NUM_LOANS_MIN_THREASHOLD in
      let default_value := min_value in
      let step :=
        if max_value <=? 20 then 1
        else if max_value <=? 100 then 5
        else if max_value <=? 500 then 10
        else 50 in
      Ok (mk_slider min_value max_value default_value step)
  end.

(** ** The metrics *)

(** Python's [max] and [min] of a sequence of floats: the first item is kept
    until one compares greater (smaller); an empty sequence raises
    [ValueError]. *)
Definition max_float (l : list F.fval) : result F.fval :=
  match l with
  | [] => Raise ValueError
  | x :: t => Ok (fold_left (fun m y => if F.ltb m y then y else m) t x)
  end.

Definition min_float (l : list F.fval) : result F.fval :=
  match l with
  | [] => Raise ValueError
  | x :: t => Ok (fold_left (fun m y => if F.ltb y m then y else m) t x)
  end.

(** [next(record for record in records if record["hhi"] == value)]; an
    exhausted generator raises [StopIteration]. *)
Definition next_with_hhi (value : F.fval) (records : list Score.t)
  : result Score.t :=
  match find (fun record => F.eqb (Score.hhi record) value) records with
  | Some record => Ok record
  | None => Raise StopIteration
  end.

(** One [st.metric]: its label and the number it shows (the number is
    formatted with no decimals when displayed). *)
Inductive metric : Type := Metric (label : string) (value : F.fval).

(** ** The stacked bar chart *)

(** pandas [unique()]: the values in the order of their first appearance. *)
Fixpoint unique_from (seen : list string) (l : list string) : list string :=
  match l with
  | [] => []
  | x :: t =>
      if existsb (String.eqb x) seen then unique_from seen t
      else x :: unique_from (x :: seen) t
  end.

Definition unique (l : list string) : list string := unique_from [] l.

(** The call of [show_lender_market_share_stacked_bar]. *)
Record stacked_bar : Type := mk_stacked_bar {
  chart_df : list Row.t;
  sorted_bin_labels : list string;
  height : Z;
  y_title : option string;
  y_label_limit : Z
}.

Definition _show_stacked_bar (chart_df : list Row.t) : stacked_bar :=
  let sorted_bin_labels := unique (map Row.loan_amount_bin chart_df) in
  let height := Z.max (70 * Z.of_nat (List.length sorted_bin_labels)) 160 in
  let y_title := None in
  let y_label_limit := 300 in
  mk_stacked_bar chart_df sorted_bin_labels height y_title y_label_limit.

Section Page.

(** [LABEL_SEPARATOR] and [get_edge_range] of
    [utils/market_share_stacked_bar.py] and the lender aggregator of
    [utils/lender.py].  [get_edge_range] gives the two edges of a bin label,
    or raises. *)
Variable LABEL_SEPARATOR : string.
Variable get_edge_range : string -> result (Z * Z).
Variable get_lender_to_loan_amount_bins :
  list Loan.t -> list Z -> list string -> list Row.t.

(** The frame of one record in [_get_stacked_bar_data]: the aggregator run on
    the city's rows with the two edges of the record's bin and the one joined
    label. *)
Definition bin_level_df (df : list Loan.t) (record : Score.t)
  : result (list Row.t) :=
  let city := Score.city record in
  let loan_amount_bin := Score.loan_amount_bin record in
  let city_level_df := city_group df city in
  let joined_bin_label := (city ++ LABEL_SEPARATOR ++ loan_amount_bin)%string in
  match get_edge_range loan_amount_bin with
  | Raise e => Raise e
  | Ok bin_edges =>
      Ok (get_lender_to_loan_amount_bins city_level_df
            [fst bin_edges; snd bin_edges] [joined_bin_label])
  end.

(** The loop that fills [amount_bin_level_dfs]. *)
Fixpoint amount_bin_level_dfs (df : list Loan.t) (score_records : list Score.t)
  : result (list (list Row.t)) :=
  match score_records with
  | [] => Ok []
  | record :: rest =>
      match bin_level_df df record with
      | Raise e => Raise e
      | Ok frame =>
          match amount_bin_level_dfs df rest with
          | Raise e => Raise e
          | Ok frames => Ok (frame :: frames)
          end
      end
  end.

(** [pd.concat] raises [ValueError] when it is given no frame. *)
Definition _get_stacked_bar_data (df : list Loan.t)
  (score_records : list Score.t) : result (list Row.t) :=
  match amount_bin_level_dfs df score_records with
  | Raise e => Raise e
  | Ok [] => Raise ValueError
  | Ok frames => Ok (List.concat frames)
  end.

(** The label of a record in the metrics. *)
Definition metric_label (record : Score.t) : string :=
  ("  " ++ Score.city record ++ LABEL_SEPARATOR
        ++ Score.loan_amount_bin record)%string.

(** The two metrics [_show_metrics_selected_data] puts in its columns. *)
Definition _show_metrics_selected_data (selected_score_records : list Score.t)
  : result (metric * metric) :=
  match max_float (map Score.hhi selected_score_records) with
  | Raise e => Raise e
  | Ok max_hhi_value =>
  match min_float (map Score.hhi selected_score_records) with
  | Raise e => Raise e
  | Ok min_hhi_value =>
  match next_with_hhi max_hhi_value selected_score_records with
  | Raise e => Raise e
  | Ok max_hhi_record =>
  match next_with_hhi min_hhi_value selected_score_records with
  | Raise e => Raise e
  | Ok min_hhi_record =>
      let max_hhi_label := metric_label max_hhi_record in
      let min_hhi_label := metric_label min_hhi_record in
      Ok (Metric ("**Highest HHI**```" ++ max_hhi_label ++ "```")
                 max_hhi_value,
          Metric ("**Lowest HHI**```" ++ min_hhi_label ++ "```")
                 min_hhi_value)
  end end end end.

End Page.

(** ** The page *)

(** The text of [_show_info_stacked_bar] for the first category. *)
Definition CONCENTRATED_TEXT : string :=
  ("The chart highlights market segments where one or a few "
     ++ "lenders dominate originations. The segments with the highest "
     ++ "HHI, sorted top-down in descending order, indicate a high "
     ++ "degree of market concentration and limited competition. For "
     ++ "lenders, this can signal both opportunity and "
     ++ "challenge—while entering these markets may require "
     ++ "displacing entrenched players, it also suggests the "
     ++ "potential for strong pricing power and defensible market "
     ++ "share if a competitive foothold is established. These "
     ++ "segments often reflect high barriers to entry but may reward "
     ++ "strategic investment and differentiated positioning.")%string.

(** The text of [_show_info_stacked_bar] for the second category. *)
Definition FRAGMENTED_TEXT : string :=
  ("This chart highlights the top 10 market segments with the "
     ++ "most competitive lending environments. The segments with the "
     ++ "lowest HHI, sorted top-down in ascending order, indicate "
     ++ "that loan originations are distributed across a wide range "
     ++ "of lenders, with relatively few lenders dominating the "
     ++ "market. High lender diversity suggests healthy competition, "
     ++ "greater borrower choice, and potentially lower barriers to "
     ++ "entry—making these segments important for assessing both "
     ++ "competitive dynamics and expansion opportunities.")%string.

(** The text of [_show_info_stacked_bar] for any other category. *)
Definition ALL_TEXT : string :=
  ("The chart presents all market segments, sorted by loan "
     ++ "amount category.")%string.

(** The first paragraph of [_show_introduction]. *)
Definition INTRODUCTION_MEASURE : string :=
  ("To assess the concentration of lending power across various "
     ++ "market segments, we use the **[Herfindahl-Hirschman "
     ++ "Index](https://www.justice.gov/atr/herfindahl-hirschman-index) "
     ++ "(HHI)**, a widely recognized metric for measuring market "
     ++ "concentration. HHI is calculated by summing the squares of "
     ++ "each lender’s market share within a defined segment—such "
     ++ "as a geographic region or loan size tier. A higher HHI "
     ++ "indicates a more concentrated market, potentially limiting "
     ++ "competition and borrower choice.")%string.

(** The second paragraph of [_show_introduction]. *)
Definition INTRODUCTION_USE : string :=
  ("By applying this measure, we can identify market segments "
     ++ "with the greatest potential for growth and lending "
     ++ "opportunities.")%string.

(** What the page receives, in the order of the calls: the elements drawn
    through [streamlit] and [utils.gui], and the lines printed. *)
Inductive page_event : Type :=
| StH1 (text : string)
| StH2 (text : string) (w_divider : bool)
| StWrite (text : string)
| StMarkdown (text : string)
| StRadio (label : string) (options : list string)
| StSlider (label : string) (args : slider)
| StInfoNamed (name : string)
| StMetrics (columns : metric * metric)
| StStackedBar (call : stacked_bar)
| StToggle (label : string)
| StDataframe (rows : list (string * string * Z * F.fval))
| StInfo (heading text : string)
| StFooter
| Stdout (line : stdout_line).

(** A computation of the page: it extends the log of events and returns a
    value or raises. *)
Definition page (A : Type) : Type :=
  list page_event -> list page_event * result A.

Definition ret {A : Type} (a : A) : page A := fun log => (log, Ok a).

Definition bind {A B : Type} (m : page A) (k : A -> page B) : page B :=
  fun log =>
    match m log with
    | (log', Ok a) => k a log'
    | (log', Raise e) => (log', Raise e)
    end.

Definition emit (e : page_event) : page unit := fun log => (log ++ [e], Ok tt).

Definition lift {A : Type} (r : result A) : page A := fun log => (log, r).

Declare Scope page_scope.
Delimit Scope page_scope with page.
Notation "x <- m ;; k" := (bind m (fun x => k))
  (at level 61, m at next level, right associativity) : page_scope.
Notation "m ;; k" := (bind m (fun _ => k))
  (at level 61, right associativity) : page_scope.

(** Runs a page computation from an empty log. *)
Definition run {A : Type} (m : page A) : list page_event * result A := m [].

(** The columns [_show_df] keeps. *)
Definition _show_df (selected_score_records : list Score.t) : page unit :=
  emit (StDataframe
          (map (fun r => (Score.city r, Score.loan_amount_bin r,
                          Score.bin_num_loans r, Score.hhi r))
               selected_score_records)).

Definition _show_info_stacked_bar (selected_category : string) : page unit :=
  let text :=
    if String.eqb selected_category HIGH_HHI_SEGMENT then CONCENTRATED_TEXT
    else if String.eqb selected_category LOW_HHI_SEGMENT then FRAGMENTED_TEXT
    else ALL_TEXT in
  emit (StInfo "##### :material/cognition: How to Interpret the Chart" text).

Definition _show_introduction : page unit :=
  emit (StMarkdown (INTRODUCTION_MEASURE ++ String (ascii_of_nat 10)
                      (String (ascii_of_nat 10) INTRODUCTION_USE))).

Section RenderPage.

Variable LABEL_SEPARATOR : string.
Variable get_edge_range : string -> result (Z * Z).
Variable LOCATION : string.
Variable BIN_EDGE_TO_LABEL : list (Z * string).
Variable get_lender_to_loan_amount_bins :
  list Loan.t -> list Z -> list string -> list Row.t.

(** The answers of the widgets: the option chosen on the radio, the value
    chosen on the slider for its arguments, the state of the toggle. *)
Variable radio_choice : string.
Variable slider_choice : slider -> Z.
Variable toggle_choice : bool.

(** [_show_slider]: the slider is drawn and its value returned. *)
Definition _show_slider (score_records : list Score.t) : page Z :=
  (args <- lift (slider_of score_records) ;;
   emit (StSlider
           "**Select the minimum number of loans per market segment.**"
           args) ;;
   ret (slider_choice args))%page.

(** [render_page] for the records [load_json] returns, taken with their
    [loanAmount] already coerced to a number or NaN.  A frame built from no
    record has no column, so that [df["loanAmount"]] raises [KeyError]. *)
Definition render_page (prepped_data : list Loan.t) : page unit :=
  (emit (StH1 "Market Analysis") ;;
   emit (StH2 ("Market Concentration - " ++ LOCATION) true) ;;
   emit (StWrite "") ;;
   _show_introduction ;;
   df <- lift (match prepped_data with
               | [] => Raise KeyError
               | _ => Ok prepped_data
               end) ;;
   above_threshold_df <-
     (let printed_and_frame := _get_above_threshold_df df in
      fun log => (log ++ map Stdout (fst printed_and_frame),
                  Ok (snd printed_and_frame))) ;;
   let above_threshold_cities := map fst above_threshold_df in
   score_records <-
     lift (match _get_score_records BIN_EDGE_TO_LABEL
                   get_lender_to_loan_amount_bins df above_threshold_cities
           with
           | Some records => Ok records
           | None => Raise KeyError
           end) ;;
   emit (StWrite "") ;;
   selected_hhi_category <-
     (emit (StRadio "**Select the category to display.**"
                    [HIGH_HHI_SEGMENT; LOW_HHI_SEGMENT; ALL_SEGMENT]) ;;
      ret radio_choice) ;;
   selected_min_num_loans <- _show_slider score_records ;;
   let selected_score_records :=
     _get_selected_score_records score_records selected_min_num_loans
                                 selected_hhi_category in
   match selected_score_records with
   | [] =>
       emit (StInfoNamed "no_data_selected") ;;
       emit StFooter
   | _ =>
       emit (StWrite "") ;;
       emit (StMarkdown ("#### " ++ selected_hhi_category)) ;;
       emit (StWrite "") ;;
       columns <- lift (_show_metrics_selected_data LABEL_SEPARATOR
                          selected_score_records) ;;
       emit (StMetrics columns) ;;
       emit (StWrite "") ;;
       chart_df <- lift (_get_stacked_bar_data LABEL_SEPARATOR get_edge_range
                           get_lender_to_loan_amount_bins df
                           selected_score_records) ;;
       emit (StStackedBar (_show_stacked_bar chart_df)) ;;
       show_chart_data <- (emit (StToggle "Show Chart Data") ;;
                           ret toggle_choice) ;;
       (if show_chart_data : bool then _show_df selected_score_records
        else ret tt) ;;
       _show_info_stacked_bar selected_hhi_category ;;
       emit StFooter
   end)%page.

End RenderPage.

(** ** Sample collaborators of the page *)

(** Modelled from the spec: [get_edge_range] of
    [utils/market_share_stacked_bar.py], which is not among the sources.  The
    range of a bin label runs from the edge before its own to its own edge; a
    label that is no bin raises. *)
Fixpoint edge_range_from (lower : Z) (items : list (Z * string))
  (label : string) : result (Z * Z) :=
  match items with
  | [] => Raise ValueError
  | (upper, l) :: rest =>
      if String.eqb l label then Ok (lower, upper)
      else edge_range_from upper rest label
  end.

Definition sample_edge_range (label : string) : result (Z * Z) :=
  edge_range_from 0 bin_edge_to_label label.

(** The separator as the docstring of [_get_stacked_bar_data] shows it. *)
Definition sample_separator : string := "  |  ".


(** A slider pushed to its upper end. *)
Definition slider_at_max (args : slider) : Z := max_value args.

(** ** The page as a log *)

(** What the page has drawn and printed when it reaches the slider. *)
Definition page_header (LOCATION : string) (df : list Loan.t)
  : list page_event :=
  [StH1 "Market Analysis";
   StH2 ("Market Concentration - " ++ LOCATION) true;
   StWrite "";
   StMarkdown (INTRODUCTION_MEASURE ++ String (ascii_of_nat 10)
                 (String (ascii_of_nat 10) INTRODUCTION_USE))]
  ++ map Stdout (fst (_get_above_threshold_df df))
  ++ [StWrite "";
      StRadio "**Select the category to display.**"
              [HIGH_HHI_SEGMENT; LOW_HHI_SEGMENT; ALL_SEGMENT]].

(** The slider as the page draws it. *)
Definition slider_event (args : slider) : page_event :=
  StSlider "**Select the minimum number of loans per market segment.**" args.

(** The info box below the chart. *)
Definition info_event (category : string) : page_event :=
  StInfo "##### :material/cognition: How to Interpret the Chart"
         (if String.eqb category HIGH_HHI_SEGMENT then CONCENTRATED_TEXT
          else if String.eqb category LOW_HHI_SEGMENT then FRAGMENTED_TEXT
          else ALL_TEXT).

(** What the page draws for a selection that is not empty, before the
    footer. *)
Definition selection_log (category : string) (selected : list Score.t)
  (columns : metric * metric) (chart : list Row.t) (show_chart_data : bool)
  : list page_event :=
  [StWrite ""; StMarkdown ("#### " ++ category); StWrite "";
   StMetrics columns; StWrite "";
   StStackedBar (_show_stacked_bar chart); StToggle "Show Chart Data"]
  ++ (if show_chart_data
      then [StDataframe
              (map (fun r => (Score.city r, Score.loan_amount_bin r,
                              Score.bin_num_loans r, Score.hhi r))
                   selected)]
      else [])
  ++ [info_event category].

(** ** The scorer's records, segment by segment *)

(** The records of the segment ([city], [bin]) as the spec words it: its
    score record when it has rows and at least 10 loans, none otherwise. *)
Definition segment_records (city : string) (rows : list Row.t) (bin : string)
  : list Score.t :=
  match segment_counts rows bin with
  | [] => []
  | _ :: _ =>
      if BIN_NUM_LOANS_MIN_THREASHOLD <=? Zsum (segment_counts rows bin)
      then [segment_record city rows bin]
      else []
  end.

(** The segment a score record stands for. *)
Definition segment_of (rec : Score.t) : string * string :=
  (Score.city rec, Score.loan_amount_bin rec).

(** * Properties *)

(** ** [sorted] is a stable sort *)

Section SortedFacts.
Context {A K : Type}.
Variable key : A -> K.
Variable lt : K -> K -> bool.

Lemma insert_sorted_perm (x : A) (l : list A) :
  Permutation (x :: l) (insert_sorted key lt x l).
Proof.
  induction l as [|y t IH]; simpl; [reflexivity|].
  destruct (lt (key y) (key x)); [|reflexivity].
  rewrite perm_swap. now apply perm_skip.
Qed.

Lemma sorted_perm (l : list A) : Permutation l (sorted key lt l).
Proof.
  induction l as [|x t IH]; simpl; [constructor|].
  rewrite <- insert_sorted_perm. now apply perm_skip.
Qed.

Lemma sorted_reverse_perm (l : list A) :
  Permutation l (sorted_reverse key lt l).
Proof.
  unfold sorted_reverse.
  rewrite <- Permutation_rev, <- sorted_perm. apply Permutation_rev.
Qed.

Section Stable.
(** [keq] is the equality of keys; two keys equal to the same key are never
    strictly ordered. *)
Variable keq : K -> K -> bool.
Hypothesis lt_keq :
  forall a b k, lt a b = true -> keq a k = true -> keq b k = true -> False.

Lemma insert_sorted_filter (k : K) (x : A) (l : list A) :
  filter (fun r => keq (key r) k) (insert_sorted key lt x l)
  = filter (fun r => keq (key r) k) (x :: l).
Proof.
  induction l as [|y t IH]; [reflexivity|].
  cbn [insert_sorted].
  destruct (lt (key y) (key x)) eqn:Hlt; [|reflexivity].
  cbn [filter] in *. rewrite IH.
  destruct (keq (key x) k) eqn:Hx, (keq (key y) k) eqn:Hy; try reflexivity.
  exfalso. eapply lt_keq; eassumption.
Qed.

Lemma sorted_stable (k : K) (l : list A) :
  filter (fun r => keq (key r) k) (sorted key lt l)
  = filter (fun r => keq (key r) k) l.
Proof.
  induction l as [|x t IH]; [reflexivity|].
  cbn [sorted fold_right]. rewrite insert_sorted_filter.
  cbn [filter]. fold (sorted key lt t). now rewrite IH.
Qed.

End Stable.

Section Ordered.
(** On the keys that satisfy [ok], [lt] is a strict weak order. *)
Variable ok : K -> Prop.
Hypothesis lt_asym : forall a b, lt a b = true -> lt b a = false.
Hypothesis lt_negtrans :
  forall a b c, ok a -> ok b -> ok c ->
                lt b a = false -> lt c b = false -> lt c a = false.

Lemma insert_sorted_increasing (x : A) (l : list A) :
  ok (key x) -> Forall (fun r => ok (key r)) l ->
  StronglySorted (increasing key lt) l ->
  StronglySorted (increasing key lt) (insert_sorted key lt x l).
Proof.
  intros Hx Hl Hs. induction Hs as [|y t Hs IH Hy]; simpl.
  - repeat constructor.
  - inversion Hl as [|? ? Hoky Hokt]; subst.
    destruct (lt (key y) (key x)) eqn:Hlt.
    + constructor; [now apply IH|].
      eapply Permutation_Forall; [apply insert_sorted_perm|].
      constructor; [|assumption]. now apply lt_asym.
    + constructor; [now constructor|].
      constructor; [assumption|].
      rewrite Forall_forall in Hy, Hokt |- *. intros z Hz.
      unfold increasing. apply (lt_negtrans (key x) (key y) (key z)); auto.
      now apply Hy.
Qed.

Lemma sorted_increasing (l : list A) :
  Forall (fun r => ok (key r)) l ->
  StronglySorted (increasing key lt) (sorted key lt l).
Proof.
  induction 1 as [|x t Hx Ht IH]; simpl; [constructor|].
  apply insert_sorted_increasing; auto.
  eapply Permutation_Forall; [apply sorted_perm|assumption].
Qed.
End Ordered.

End SortedFacts.

Lemma StronglySorted_app_one {A : Type} (R : A -> A -> Prop) (l : list A)
  (x : A) :
  StronglySorted R l -> Forall (fun y => R y x) l ->
  StronglySorted R (l ++ [x]).
Proof.
  induction 1 as [|y t Hs IH Hy]; intros Hall; simpl.
  - repeat constructor.
  - inversion Hall; subst. constructor; [now apply IH|].
    apply Forall_app. split; [assumption|now constructor].
Qed.

Lemma StronglySorted_rev {A : Type} (R : A -> A -> Prop) (l : list A) :
  StronglySorted R l -> StronglySorted (fun a b => R b a) (rev l).
Proof.
  induction 1 as [|x t Hs IH Hx]; simpl; [constructor|].
  apply StronglySorted_app_one; [assumption|].
  now apply Forall_rev.
Qed.

Lemma sorted_reverse_decreasing {A K : Type} (key : A -> K)
  (lt : K -> K -> bool) (ok : K -> Prop) :
  (forall a b, lt a b = true -> lt b a = false) ->
  (forall a b c, ok a -> ok b -> ok c ->
                 lt b a = false -> lt c b = false -> lt c a = false) ->
  forall l, Forall (fun r => ok (key r)) l ->
            StronglySorted (decreasing key lt) (sorted_reverse key lt l).
Proof.
  intros Hasym Htrans l Hl. unfold sorted_reverse.
  apply (StronglySorted_rev (increasing key lt)).
  apply (sorted_increasing key lt ok Hasym Htrans).
  now apply Forall_rev.
Qed.

(** ** The order of floats *)

Lemma ltb_num (a b : Q) : F.ltb (F.FNum a) (F.FNum b) = true <-> (a < b)%Q.
Proof.
  simpl. rewrite Qlt_alt. destruct (a ?= b)%Q; split; congruence.
Qed.

Lemma ltb_num_false (a b : Q) :
  F.ltb (F.FNum a) (F.FNum b) = false <-> (b <= a)%Q.
Proof.
  rewrite <- Bool.not_true_iff_false, ltb_num. split.
  - apply Qnot_lt_le.
  - apply Qle_not_lt.
Qed.

Lemma ltb_asym (a b : F.fval) : F.ltb a b = true -> F.ltb b a = false.
Proof.
  destruct a as [a|[]|], b as [b|[]|]; try (simpl; congruence).
  rewrite ltb_num, ltb_num_false. apply Qlt_le_weak.
Qed.

Lemma ltb_negtrans (a b c : F.fval) :
  a <> F.FNaN -> b <> F.FNaN -> c <> F.FNaN ->
  F.ltb b a = false -> F.ltb c b = false -> F.ltb c a = false.
Proof.
  destruct a as [a|[]|], b as [b|[]|], c as [c|[]|]; intros Ha Hb Hc;
    try congruence; try (simpl; congruence).
  rewrite !ltb_num_false. intros Hab Hbc. eapply Qle_trans; eassumption.
Qed.


Lemma Zltb_eqb (a b k : Z) :
  (a <? b) = true -> (a =? k) = true -> (b =? k) = true -> False.
Proof. rewrite Z.ltb_lt, !Z.eqb_eq. lia. Qed.

(** ** The selector *)

Lemma filtered_records_In (l : list Score.t) (T : Z) (r : Score.t) :
  In r (filtered_records l T) <-> In r l /\ T <= Score.bin_num_loans r.
Proof.
  unfold filtered_records. rewrite filter_In, Z.leb_le. reflexivity.
Qed.

Lemma selected_high (l : list Score.t) (T : Z) :
  _get_selected_score_records l T HIGH_HHI_SEGMENT
  = firstn 10 (sorted_reverse Score.hhi F.ltb (filtered_records l T)).
Proof. reflexivity. Qed.

Lemma selected_low (l : list Score.t) (T : Z) :
  _get_selected_score_records l T LOW_HHI_SEGMENT
  = firstn 10 (sorted Score.hhi F.ltb (filtered_records l T)).
Proof. reflexivity. Qed.

Lemma selected_other (l : list Score.t) (T : Z) (category : string) :
  category <> HIGH_HHI_SEGMENT -> category <> LOW_HHI_SEGMENT ->
  _get_selected_score_records l T category
  = sorted order_key Z.ltb (filtered_records l T).
Proof.
  intros Hh Hl. unfold _get_selected_score_records.
  apply String.eqb_neq in Hh, Hl. now rewrite Hh, Hl.
Qed.

Lemma firstn_In {A : Type} (n : nat) (l : list A) (x : A) :
  In x (firstn n l) -> In x l.
Proof.
  intros Hin. rewrite <- (firstn_skipn n l). apply in_or_app. now left.
Qed.

Lemma selected_In_filtered (l : list Score.t) (T : Z) (category : string)
  (r : Score.t) :
  In r (_get_selected_score_records l T category) ->
  In r (filtered_records l T).
Proof.
  unfold _get_selected_score_records.
  destruct (String.eqb category HIGH_HHI_SEGMENT);
    [|destruct (String.eqb category LOW_HHI_SEGMENT)]; intros Hin.
  - apply firstn_In in Hin.
    apply (Permutation_in _ (Permutation_sym (sorted_reverse_perm _ _ _)) Hin).
  - apply firstn_In in Hin.
    apply (Permutation_in _ (Permutation_sym (sorted_perm _ _ _)) Hin).
  - apply (Permutation_in _ (Permutation_sym (sorted_perm _ _ _)) Hin).
Qed.

Lemma filtered_In_selected (l : list Score.t) (T : Z) (category : string)
  (r : Score.t) :
  (category <> HIGH_HHI_SEGMENT /\ category <> LOW_HHI_SEGMENT)
  \/ (List.length (filtered_records l T) <= 10)%nat ->
  In r (filtered_records l T) ->
  In r (_get_selected_score_records l T category).
Proof.
  intros Hcase Hin.
  destruct (String.eqb category HIGH_HHI_SEGMENT) eqn:Hh;
    [|destruct (String.eqb category LOW_HHI_SEGMENT) eqn:Hl].
  - apply String.eqb_eq in Hh. subst category.
    destruct Hcase as [[Hne _]|Hlen]; [congruence|].
    rewrite selected_high, firstn_all2.
    + apply (Permutation_in _ (sorted_reverse_perm _ _ _) Hin).
    + now rewrite <- (Permutation_length (sorted_reverse_perm _ _ _)).
  - apply String.eqb_eq in Hl. subst category.
    destruct Hcase as [[_ Hne]|Hlen]; [congruence|].
    rewrite selected_low, firstn_all2.
    + apply (Permutation_in _ (sorted_perm _ _ _) Hin).
    + now rewrite <- (Permutation_length (sorted_perm _ _ _)).
  - apply String.eqb_neq in Hh, Hl. rewrite selected_other by assumption.
    apply (Permutation_in _ (sorted_perm _ _ _) Hin).
Qed.

Lemma order_key_stable_sort (l : list Score.t) :
  stable_sort_of order_key Z.eqb (fun a b => order_key a <= order_key b)
                 l (sorted order_key Z.ltb l).
Proof.
  split; [apply sorted_perm|]. split.
  - assert (Hs : StronglySorted (increasing order_key Z.ltb)
                                (sorted order_key Z.ltb l)).
    { apply (sorted_increasing order_key Z.ltb (fun _ => True)).
      - intros a b. rewrite Z.ltb_lt, Z.ltb_ge. lia.
      - intros a b c _ _ _. rewrite !Z.ltb_ge. lia.
      - apply Forall_forall. trivial. }
    eapply StronglySorted_ind with (P := StronglySorted _);
      [constructor| |exact Hs].
    intros a t _ IH Ha. constructor; [exact IH|].
    eapply Forall_impl; [|exact Ha].
    intros b. unfold increasing. now rewrite Z.ltb_ge.
  - intros k. apply sorted_stable. apply Zltb_eqb.
Qed.

Lemma rank_from_listed (bins : list string) (start : Z) (bin : string) :
  In bin bins ->
  start <= rank_from start bins bin < start + Z.of_nat (List.length bins).
Proof.
  revert start. induction bins as [|b rest IH]; intros start Hin; [easy|].
  cbn [rank_from List.length]. destruct (String.eqb b bin) eqn:Hb; [lia|].
  apply String.eqb_neq in Hb. destruct Hin as [Heq|Hin]; [congruence|].
  specialize (IH (start + 1) Hin). lia.
Qed.

Lemma rank_from_unlisted (bins : list string) (start : Z) (bin : string) :
  ~ In bin bins -> rank_from start bins bin = 999.
Proof.
  revert start. induction bins as [|b rest IH]; intros start Hnin; [easy|].
  cbn [rank_from]. destruct (String.eqb b bin) eqn:Hb.
  - apply String.eqb_eq in Hb. exfalso. apply Hnin. now left.
  - apply IH. intros Hin. apply Hnin. now right.
Qed.

Lemma order_key_canonical_rank (r : Score.t) :
  order_key r = canonical_rank (Score.loan_amount_bin r).
Proof.
  unfold order_key, canonical_rank, order_map, canonical_bins.
  cbn [dict_get rank_from].
  repeat match goal with
         | |- context [String.eqb ?s ?b] => destruct (String.eqb s b)
         end; reflexivity.
Qed.

Lemma canonical_rank_place (i : nat) (bin : string) :
  nth_error canonical_bins i = Some bin -> canonical_rank bin = Z.of_nat i + 1.
Proof.
  intros Hnth.
  do 8 (destruct i as [|i]; [injection Hnth as <-; reflexivity|]).
  destruct i; discriminate.
Qed.

Lemma StronglySorted_impl {A : Type} (R R' : A -> A -> Prop) (l : list A) :
  (forall a b, R a b -> R' a b) -> StronglySorted R l -> StronglySorted R' l.
Proof.
  intros Himp. induction 1 as [|a t _ IH Ha]; constructor; [exact IH|].
  eapply Forall_impl; [|exact Ha]. intros b. apply Himp.
Qed.

Lemma canonical_stable_sort (l : list Score.t) :
  stable_sort_of canonical_key Z.eqb
                 (fun a b => canonical_key a <= canonical_key b)
                 l (sorted order_key Z.ltb l).
Proof.
  destruct (order_key_stable_sort l) as (Hperm & Hs & Hst).
  split; [exact Hperm|]. split.
  - revert Hs. apply StronglySorted_impl. intros a b.
    unfold canonical_key. now rewrite <- !order_key_canonical_rank.
  - intros k. specialize (Hst k).
    rewrite (filter_ext (fun r => Z.eqb (canonical_key r) k)
                        (fun r => Z.eqb (order_key r) k)).
    + rewrite Hst. apply filter_ext. intros r. unfold canonical_key.
      now rewrite order_key_canonical_rank.
    + intros r. unfold canonical_key. now rewrite order_key_canonical_rank.
Qed.

Lemma StronglySorted_app_r {A : Type} (R : A -> A -> Prop) (l1 l2 : list A) :
  StronglySorted R (l1 ++ l2) -> StronglySorted R l2.
Proof.
  induction l1 as [|x t IH]; simpl; [trivial|].
  intros Hs. apply StronglySorted_inv in Hs. now apply IH.
Qed.

Lemma StronglySorted_before {A : Type} (R : A -> A -> Prop)
  (l1 l2 l3 : list A) (b a : A) :
  StronglySorted R (l1 ++ b :: l2 ++ a :: l3) -> R b a.
Proof.
  intros Hs. apply StronglySorted_app_r, StronglySorted_inv in Hs.
  destruct Hs as [_ Hall]. rewrite Forall_forall in Hall.
  apply Hall, in_elt.
Qed.

(** C3, as stated, fails: with the top-10 category MostConcentrated, the
    segment with twenty loans is selected at threshold 20 and is no longer
    selected at the lower threshold 10, where ten segments of higher HHI fill
    the ten places. *)
Lemma selection_not_monotone_top10 :
  10 < 20
  /\ In large_segment
        (_get_selected_score_records eleven_segments 20 HIGH_HHI_SEGMENT)
  /\ ~ In large_segment
          (_get_selected_score_records eleven_segments 10 HIGH_HHI_SEGMENT).
Proof.
  split; [lia|]. split.
  - vm_compute. now left.
  - vm_compute. intros Hin.
    repeat (destruct Hin as [Heq|Hin]; [discriminate Heq|]). exact Hin.
Qed.

(** C3, amended: selection is monotone in the threshold wherever the top-10
    cut does not apply.  For thresholds T < T', a record selected at T' is
    selected at T when the category is neither of the two top-10 titles, or
    when at most ten records reach the threshold T. *)
Theorem selection_monotone_without_cut (l : list Score.t)
  (category : string) (T T' : Z) (r : Score.t) :
  T < T' ->
  (category <> HIGH_HHI_SEGMENT /\ category <> LOW_HHI_SEGMENT)
  \/ (List.length (filtered_records l T) <= 10)%nat ->
  In r (_get_selected_score_records l T' category) ->
  In r (_get_selected_score_records l T category).
Proof.
  intros HT Hcase Hin. apply filtered_In_selected; [exact Hcase|].
  apply selected_In_filtered in Hin.
  rewrite filtered_records_In in Hin |- *. destruct Hin as [Hin Hge].
  split; [exact Hin|lia].
Qed.

Lemma selection_monotone_without_cut_witness :
  In large_segment (_get_selected_score_records eleven_segments 10 ALL_SEGMENT).
Proof.
  apply (selection_monotone_without_cut eleven_segments ALL_SEGMENT 10 20).
  - lia.
  - left. split; discriminate.
  - vm_compute. now left.
Defined.




(** C5: with the category All the selector returns every record whose
    bin_num_loans reaches the threshold, and no other, sorted stably by the
    place of its bin in the canonical order, which runs from "$5M - $10M"
    (first) to "$0 - $50K" (eighth); a bin label outside the canonical set has
    the place 999, so that in the result only such records follow such a
    record, in the order they had in the input.  The key the code sorts by is
    that place. *)
Theorem selected_all_canonical_order (l : list Score.t) (T : Z) :
  let out := _get_selected_score_records l T ALL_SEGMENT in
  stable_sort_of canonical_key Z.eqb
                 (fun a b => canonical_key a <= canonical_key b)
                 (filter (fun r => T <=? Score.bin_num_loans r) l) out
  /\ List.length out
     = List.length (filter (fun r => T <=? Score.bin_num_loans r) l)
  /\ (forall r, order_key r = canonical_rank (Score.loan_amount_bin r))
  /\ (forall i bin, nth_error canonical_bins i = Some bin ->
                    canonical_rank bin = Z.of_nat i + 1)
  /\ (forall bin, ~ In bin canonical_bins -> canonical_rank bin = 999)
  /\ (forall l1 b l2 a l3,
         out = l1 ++ b :: l2 ++ a :: l3 ->
         ~ In (Score.loan_amount_bin b) canonical_bins ->
         ~ In (Score.loan_amount_bin a) canonical_bins).
Proof.
  intros out.
  change (filter (fun r => T <=? Score.bin_num_loans r) l)
    with (filtered_records l T).
  assert (Hout : out = sorted order_key Z.ltb (filtered_records l T)).
  { apply selected_other; discriminate. }
  pose proof (canonical_stable_sort (filtered_records l T)) as Hst.
  rewrite <- Hout in Hst.
  split; [exact Hst|]. split.
  { destruct Hst as [Hperm _]. symmetry. now apply Permutation_length. }
  split; [apply order_key_canonical_rank|].
  split; [apply canonical_rank_place|].
  split; [intros bin; apply rank_from_unlisted|].
  intros l1 b l2 a l3 Heq Hb Ha.
  destruct Hst as (_ & Hs & _). rewrite Heq in Hs.
  apply StronglySorted_before in Hs.
  unfold canonical_key, canonical_rank in Hs.
  rewrite (rank_from_unlisted _ _ _ Hb) in Hs.
  pose proof (rank_from_listed canonical_bins 1 _ Ha) as Hr.
  cbn [List.length canonical_bins] in Hr. lia.
Qed.

(** At the threshold 12 the segment of eleven loans is dropped; the record of
    the largest bin, third in the input, comes first, and the record of the
    unlisted bin last. *)
Lemma selected_all_canonical_order_witness :
  _get_selected_score_records tied_segments 12 ALL_SEGMENT
  = [ Score.mk "LYNN" "$5M - $10M" 15 (F.Root F.FNaN) (F.FNum 10000);
      Score.mk "DOVER" "$0 - $50K" 12 (F.Root F.FNaN) (F.FNum 10000);
      Score.mk "SALEM" "other" 30 (F.Root (F.FNum 2)) (F.FNum 2500) ]
  /\ filter (fun r => 12 <=? Score.bin_num_loans r) tied_segments
     = [ Score.mk "DOVER" "$0 - $50K" 12 (F.Root F.FNaN) (F.FNum 10000);
         Score.mk "SALEM" "other" 30 (F.Root (F.FNum 2)) (F.FNum 2500);
         Score.mk "LYNN" "$5M - $10M" 15 (F.Root F.FNaN) (F.FNum 10000) ]
  /\ stable_sort_of canonical_key Z.eqb
       (fun a b => canonical_key a <= canonical_key b)
       (filter (fun r => 12 <=? Score.bin_num_loans r) tied_segments)
       (_get_selected_score_records tied_segments 12 ALL_SEGMENT).
Proof.
  split; [reflexivity|]. split; [reflexivity|].
  exact (proj1 (selected_all_canonical_order tied_segments 12)).
Defined.

Lemma filtered_records_none (l : list Score.t) (T : Z) :
  Forall (fun r => Score.bin_num_loans r < T) l -> filtered_records l T = [].
Proof.
  induction 1 as [|r t Hr Ht IH]; [reflexivity|].
  unfold filtered_records in *. cbn [filter].
  destruct (T <=? Score.bin_num_loans r) eqn:Hle; [|exact IH].
  apply Z.leb_le in Hle. lia.
Qed.

(** C8: when no record has bin_num_loans at or above the threshold, the
    selector returns the empty list, whatever the category; the caller then
    shows the "no data" notice and the footer and nothing of the sections
    below. *)
Theorem selected_empty_below_threshold (l : list Score.t) (T : Z)
  (category : string) (show_chart_data : bool) :
  Forall (fun r => Score.bin_num_loans r < T) l ->
  _get_selected_score_records l T category = []
  /\ render_selection (_get_selected_score_records l T category) category
                      show_chart_data
     = [Info "no_data_selected"; Footer].
Proof.
  intros Hall.
  assert (Hsel : _get_selected_score_records l T category = []).
  { unfold _get_selected_score_records.
    rewrite (filtered_records_none l T Hall).
    destruct (String.eqb category HIGH_HHI_SEGMENT);
      [|destruct (String.eqb category LOW_HHI_SEGMENT)]; reflexivity. }
  rewrite Hsel. split; reflexivity.
Qed.

Lemma selected_empty_below_threshold_witness :
  Forall (fun r => Score.bin_num_loans r < 40) tied_segments
  /\ _get_selected_score_records tied_segments 40 LOW_HHI_SEGMENT = []
  /\ render_selection
       (_get_selected_score_records tied_segments 40 LOW_HHI_SEGMENT)
       LOW_HHI_SEGMENT true
     = [Info "no_data_selected"; Footer].
Proof.
  assert (H : Forall (fun r => Score.bin_num_loans r < 40) tied_segments)
    by (repeat constructor; simpl; lia).
  split; [exact H|].
  exact (selected_empty_below_threshold tied_segments 40 LOW_HHI_SEGMENT true H).
Defined.

(** C10: a category that is neither of the two top-10 titles, the All title
    or any other string, is treated as All: the selector returns, and what it
    returns is every record whose bin_num_loans reaches the threshold, and no
    other, sorted stably by the place of its bin in the canonical order, with
    no cut to ten.  That place is the 1-based position of the bin in the list
    from "$5M - $10M" to "$0 - $50K", and 999 for any other label. *)
Theorem selected_unknown_category_as_all (l : list Score.t) (T : Z)
  (category : string) :
  category <> HIGH_HHI_SEGMENT -> category <> LOW_HHI_SEGMENT ->
  _get_selected_score_records l T category
  = _get_selected_score_records l T ALL_SEGMENT
  /\ stable_sort_of canonical_key Z.eqb
       (fun a b => canonical_key a <= canonical_key b)
       (filter (fun r => T <=? Score.bin_num_loans r) l)
       (_get_selected_score_records l T category)
  /\ List.length (_get_selected_score_records l T category)
     = List.length (filter (fun r => T <=? Score.bin_num_loans r) l)
  /\ (forall i bin, nth_error canonical_bins i = Some bin ->
                    canonical_rank bin = Z.of_nat i + 1)
  /\ (forall bin, ~ In bin canonical_bins -> canonical_rank bin = 999).
Proof.
  intros Hh Hl.
  change (filter (fun r => T <=? Score.bin_num_loans r) l)
    with (filtered_records l T).
  rewrite (selected_other l T category Hh Hl).
  rewrite (selected_other l T ALL_SEGMENT) by discriminate.
  split; [reflexivity|].
  pose proof (canonical_stable_sort (filtered_records l T)) as Hst.
  split; [exact Hst|]. split.
  { destruct Hst as [Hperm _]. symmetry. now apply Permutation_length. }
  split; [apply canonical_rank_place|].
  intros bin. apply rank_from_unlisted.
Qed.

(** An unknown category on records that are not in canonical order, at the
    threshold 12, which drops the segment of eleven loans. *)
Lemma selected_unknown_category_as_all_witness :
  "Largest Segments" <> HIGH_HHI_SEGMENT
  /\ "Largest Segments" <> LOW_HHI_SEGMENT
  /\ _get_selected_score_records tied_segments 12 "Largest Segments"
     = [ Score.mk "LYNN" "$5M - $10M" 15 (F.Root F.FNaN) (F.FNum 10000);
         Score.mk "DOVER" "$0 - $50K" 12 (F.Root F.FNaN) (F.FNum 10000);
         Score.mk "SALEM" "other" 30 (F.Root (F.FNum 2)) (F.FNum 2500) ]
  /\ _get_selected_score_records tied_segments 12 "Largest Segments"
     = _get_selected_score_records tied_segments 12 ALL_SEGMENT
  /\ stable_sort_of canonical_key Z.eqb
       (fun a b => canonical_key a <= canonical_key b)
       (filter (fun r => 12 <=? Score.bin_num_loans r) tied_segments)
       (_get_selected_score_records tied_segments 12 "Largest Segments")
  /\ List.length
       (_get_selected_score_records tied_segments 12 "Largest Segments")
     = 3%nat.
Proof.
  assert (Hh : "Largest Segments" <> HIGH_HHI_SEGMENT) by discriminate.
  assert (Hl : "Largest Segments" <> LOW_HHI_SEGMENT) by discriminate.
  split; [exact Hh|]. split; [exact Hl|]. split; [reflexivity|].
  destruct (selected_unknown_category_as_all tied_segments 12
              "Largest Segments" Hh Hl) as (Heq & Hst & Hlen & _).
  split; [exact Heq|]. split; [exact Hst|]. rewrite Hlen. reflexivity.
Defined.

(** ** The scorer: frames and groups *)

Lemma for_each_total {X Y : Type} (body : X -> option (list Y))
  (g : X -> list Y) (xs : list X) :
  (forall x, In x xs -> body x = Some (g x)) ->
  for_each body xs = Some (flat_map g xs).
Proof.
  induction xs as [|x rest IH]; intros Hbody; [reflexivity|].
  cbn [for_each flat_map].
  rewrite (Hbody x (or_introl eq_refl)), IH; [reflexivity|].
  intros y Hy. apply Hbody. now right.
Qed.

Lemma group_In {R : Type} (label : R -> string) (frame : list R) (b : string)
  (r : R) :
  In r (group label frame b) <-> In r frame /\ label r = b.
Proof. unfold group. now rewrite filter_In, String.eqb_eq. Qed.

Lemma group_map {R S : Type} (label : R -> string) (label' : S -> string)
  (f : R -> S) (frame : list R) (b : string) :
  (forall r, label' (f r) = label r) ->
  group label' (map f frame) b = map f (group label frame b).
Proof.
  intros Hlabel. unfold group.
  induction frame as [|r t IH]; [reflexivity|].
  cbn [map filter]. rewrite Hlabel, IH. now destruct (String.eqb (label r) b).
Qed.

Lemma filter_all {A : Type} (p : A -> bool) (c : bool) (l : list A) :
  (forall x, In x l -> p x = c) -> filter p l = if c then l else [].
Proof.
  induction l as [|x t IH]; intros Hp; [now destruct c|].
  cbn [filter]. rewrite (Hp x (or_introl eq_refl)), IH.
  - now destruct c.
  - intros y Hy. apply Hp. now right.
Qed.

Lemma filter_filter_comm {A : Type} (p q : A -> bool) (l : list A) :
  filter p (filter q l) = filter q (filter p l).
Proof.
  induction l as [|x t IH]; [reflexivity|].
  cbn [filter]. destruct (p x) eqn:Hp, (q x) eqn:Hq; cbn [filter];
    rewrite ?Hp, ?Hq, IH; reflexivity.
Qed.

Lemma groupby_In {R : Type} (label : R -> string) (categories : list string)
  (frame : list R) (b : string) (g : list R) :
  In (b, g) (groupby label categories frame)
  <-> In b categories /\ g = group label frame b /\ g <> [].
Proof.
  unfold groupby. rewrite in_flat_map. split.
  - intros (c & Hc & Hin). destruct (group label frame c) eqn:Hg; [easy|].
    destruct Hin as [Heq|[]]. injection Heq as <- <-.
    repeat split; [assumption|now symmetry|discriminate].
  - intros (Hb & -> & Hne). exists b. split; [assumption|].
    destruct (group label frame b); [congruence|now left].
Qed.

Lemma series_get_groupby {R V : Type} (label : R -> string)
  (h : list R -> V) (categories : list string) (frame : list R) (b : string) :
  In b categories -> group label frame b <> [] ->
  series_get (map (fun bg : string * list R => (fst bg, h (snd bg)))
                  (groupby label categories frame)) b
  = Some (h (group label frame b)).
Proof.
  intros Hb Hne. induction categories as [|c rest IH]; [easy|].
  unfold groupby. cbn [flat_map]. fold (groupby label rest frame).
  destruct (String.eqb c b) eqn:Hcb.
  - apply String.eqb_eq in Hcb. subst c.
    destruct (group label frame b) eqn:Hg; [congruence|].
    cbn. now rewrite String.eqb_refl.
  - assert (Hrest : In b rest).
    { destruct Hb as [Heq|Hin]; [|exact Hin].
      subst c. now rewrite String.eqb_refl in Hcb. }
    destruct (group label frame c); cbn; [|rewrite Hcb]; now apply IH.
Qed.

(** The row that [add_lender_num_loans_pct] makes of a row of [rows]. *)
Lemma add_lender_num_loans_pct_group (rows : list Row.t) (b : string) :
  group Frame.loan_amount_bin (add_lender_num_loans_pct rows) b
  = map (fun r =>
           Frame.mk (Row.lender r) b (Row.num_loans r)
             (Zsum (segment_counts rows b))
             (F.mul (F.div (F.of_int (Row.num_loans r))
                           (F.of_int (Zsum (segment_counts rows b))))
                    (F.of_int 100)))
        (group Row.loan_amount_bin rows b).
Proof.
  unfold add_lender_num_loans_pct.
  rewrite (group_map Row.loan_amount_bin Frame.loan_amount_bin)
    by reflexivity.
  apply map_ext_in. intros r Hr. apply group_In in Hr.
  destruct Hr as [_ Hr]. now rewrite Hr.
Qed.

Lemma keep_min_bin_num_loans_group (rows : list Row.t) (b : string) :
  group Frame.loan_amount_bin
        (keep_min_bin_num_loans (add_lender_num_loans_pct rows)) b
  = if BIN_NUM_LOANS_MIN_THREASHOLD <=? Zsum (segment_counts rows b)
    then group Frame.loan_amount_bin (add_lender_num_loans_pct rows) b
    else [].
Proof.
  unfold keep_min_bin_num_loans, group at 1.
  rewrite filter_filter_comm. fold (group Frame.loan_amount_bin
                              (add_lender_num_loans_pct rows) b).
  apply filter_all. intros r Hr.
  rewrite add_lender_num_loans_pct_group in Hr.
  apply in_map_iff in Hr. destruct Hr as (r0 & <- & _). reflexivity.
Qed.

(** ** Float arithmetic on numbers *)

Lemma qsign_pos (z : Z) : 0 < z -> F.qsign (inject_Z z) = Gt.
Proof.
  intros Hz. unfold F.qsign. apply Qgt_alt.
  change 0%Q with (inject_Z 0). now rewrite <- Zlt_Qlt.
Qed.

Lemma pct_number (n N : Z) :
  0 < N ->
  F.mul (F.div (F.of_int n) (F.of_int N)) (F.of_int 100)
  = F.FNum (lender_share_pct n N).
Proof.
  intros HN. unfold F.div, F.of_int. now rewrite (qsign_pos N HN).
Qed.

Lemma pct_zero_divisor (n : Z) :
  F.is_finite (F.mul (F.div (F.of_int n) (F.of_int 0)) (F.of_int 100)) = false.
Proof.
  unfold F.div, F.of_int.
  replace (F.qsign (inject_Z 0)) with Eq by reflexivity.
  destruct (F.qsign (inject_Z n)); reflexivity.
Qed.

Lemma filter_nums (qs : list Q) :
  filter (fun x => negb (F.is_nan x)) (map F.FNum qs) = map F.FNum qs.
Proof.
  induction qs as [|q t IH]; [reflexivity|]. cbn. now rewrite IH.
Qed.

Lemma fold_add_nums (qs : list Q) (a : Q) :
  fold_left F.add (map F.FNum qs) (F.FNum a) = F.FNum (fold_left Qplus qs a).
Proof.
  revert a. induction qs as [|q t IH]; intros a; [reflexivity|].
  cbn. apply IH.
Qed.

Lemma sum_nums (qs : list Q) :
  F.sum (map F.FNum qs) = F.FNum (fold_left Qplus qs 0%Q).
Proof. unfold F.sum. now rewrite filter_nums, fold_add_nums. Qed.

Lemma fold_left_Qsum (qs : list Q) (a : Q) :
  (fold_left Qplus qs a == a + Qsum qs)%Q.
Proof.
  revert a. unfold Qsum.
  induction qs as [|q t IH]; intros a; cbn [fold_left fold_right].
  - ring.
  - rewrite IH. ring.
Qed.

Lemma sum_nums_Qsum (qs : list Q) :
  exists s, F.sum (map F.FNum qs) = F.FNum s /\ (s == Qsum qs)%Q.
Proof.
  eexists. split; [apply sum_nums|]. rewrite fold_left_Qsum. ring.
Qed.

Lemma Qsum_ext (f g : Q -> Q) (qs : list Q) :
  (forall q, (f q == g q)%Q) -> (Qsum (map f qs) == Qsum (map g qs))%Q.
Proof.
  intros Hfg. unfold Qsum.
  induction qs as [|q t IH]; cbn [map fold_right]; [reflexivity|].
  now rewrite IH, Hfg.
Qed.

Lemma std_single (q : Q) : F.std [F.FNum q] = F.Root F.FNaN.
Proof. reflexivity. Qed.

Lemma std_nums (qs : list Q) :
  (2 <= List.length qs)%nat ->
  exists v, F.std (map F.FNum qs) = F.Root (F.FNum v)
            /\ (v == sample_variance qs)%Q.
Proof.
  intros Hlen. unfold F.std. rewrite filter_nums, length_map.
  set (k := Z.of_nat (List.length qs)).
  assert (Hk : 2 <= k) by (unfold k; lia).
  destruct (k <=? 1) eqn:Hle; [apply Z.leb_le in Hle; lia|].
  rewrite sum_nums. unfold F.div at 2, F.of_int.
  rewrite (qsign_pos k) by lia.
  set (mean := (fold_left Qplus qs 0 / inject_Z k)%Q).
  rewrite map_map. cbn [F.sub F.neg F.add F.sq F.mul].
  rewrite <- (map_map (fun x => ((x + - mean) * (x + - mean))%Q) F.FNum).
  rewrite sum_nums. unfold F.div. rewrite (qsign_pos (k - 1)) by lia.
  eexists. split; [reflexivity|].
  unfold sample_variance. fold k.
  assert (Hmean : (mean == Qsum qs / inject_Z k)%Q).
  { unfold mean. rewrite fold_left_Qsum. now rewrite Qplus_0_l. }
  rewrite fold_left_Qsum, Qplus_0_l.
  assert (Hk1 : (inject_Z (k - 1) == inject_Z k - 1)%Q).
  { unfold Z.sub. rewrite inject_Z_plus. reflexivity. }
  rewrite Hk1.
  apply Qmult_comp; [|reflexivity].
  apply Qsum_ext. intros q. rewrite Hmean. unfold Qminus. reflexivity.
Qed.

(** ** Sums of squares of loan counts *)

Lemma Zsum_cons (n : Z) (t : list Z) : Zsum (n :: t) = n + Zsum t.
Proof. reflexivity. Qed.

Ltac zsum :=
  cbn [map List.length filter]; rewrite ?Zsum_cons; change (Zsum []) with 0.

Lemma Zsum_nonneg (l : list Z) : Forall (fun n => 0 <= n) l -> 0 <= Zsum l.
Proof. induction 1 as [|n t Hn Ht IH]; zsum; lia. Qed.

Lemma In_le_Zsum (l : list Z) (n : Z) :
  Forall (fun n => 0 <= n) l -> In n l -> n <= Zsum l.
Proof.
  induction 1 as [|m t Hm Ht IH]; [easy|].
  pose proof (Zsum_nonneg t Ht).
  intros [->|Hin]; zsum; [lia|]. specialize (IH Hin). lia.
Qed.

Lemma Zsum_zero_squares (l : list Z) :
  Forall (fun n => 0 <= n) l -> Zsum l = 0 ->
  Zsum (map (fun n => n * n) l) = 0.
Proof.
  induction 1 as [|m t Hm Ht IH]; [reflexivity|].
  zsum. intros Hsum. pose proof (Zsum_nonneg t Ht).
  assert (m = 0) by lia. subst m. rewrite IH; lia.
Qed.

Lemma squares_cross (N : Z) (l : list Z) :
  Zsum (map (fun n => n * n) l) + Zsum (map (fun n => n * (N - n)) l)
  = N * Zsum l.
Proof. induction l as [|n t IH]; zsum; lia. Qed.

Lemma cross_nonneg (N : Z) (l : list Z) :
  Forall (fun n => 0 <= n <= N) l ->
  0 <= Zsum (map (fun n => n * (N - n)) l).
Proof. induction 1 as [|n t Hn Ht IH]; zsum; [lia|nia]. Qed.

Lemma cross_zero (N : Z) (l : list Z) :
  Forall (fun n => 0 <= n <= N) l ->
  Zsum (map (fun n => n * (N - n)) l) = 0 ->
  Forall (fun n => n = 0 \/ n = N) l.
Proof.
  induction 1 as [|n t Hn Ht IH]; zsum; intros Hz; constructor.
  - pose proof (cross_nonneg N t Ht). nia.
  - apply IH. pose proof (cross_nonneg N t Ht). nia.
Qed.

Lemma Zsum_zero_or_all (N : Z) (l : list Z) :
  N <> 0 -> Forall (fun n => n = 0 \/ n = N) l ->
  Zsum l = N * Z.of_nat (List.length (filter (fun n => n =? N) l)).
Proof.
  intros HN. induction 1 as [|n t Hn Ht IH]; [cbn; lia|].
  zsum. rewrite IH. destruct Hn as [->| ->].
  - destruct (0 =? N) eqn:H0; [apply Z.eqb_eq in H0; lia|lia].
  - rewrite Z.eqb_refl. cbn [List.length]. lia.
Qed.

Lemma bounded_by_Zsum (l : list Z) :
  Forall (fun n => 0 <= n) l -> Forall (fun n => 0 <= n <= Zsum l) l.
Proof.
  intros Hl. apply Forall_forall. intros n Hn. split.
  - rewrite Forall_forall in Hl. now apply Hl.
  - now apply In_le_Zsum.
Qed.

Lemma squares_le (l : list Z) :
  Forall (fun n => 0 <= n) l ->
  Zsum (map (fun n => n * n) l) <= Zsum l * Zsum l.
Proof.
  intros Hl. pose proof (squares_cross (Zsum l) l).
  pose proof (cross_nonneg (Zsum l) l (bounded_by_Zsum l Hl)). lia.
Qed.

Lemma squares_pos (l : list Z) :
  Forall (fun n => 0 <= n) l -> 0 < Zsum l ->
  0 < Zsum (map (fun n => n * n) l).
Proof.
  intros Hl Hpos.
  assert (Zsum l <= Zsum (map (fun n => n * n) l)); [|lia].
  clear Hpos. induction Hl as [|n t Hn Ht IH]; zsum; [lia|nia].
Qed.

Lemma holder_of_all (l : list Z) (N : Z) :
  Forall (fun n => 0 <= n) l -> In N l -> Zsum l = N ->
  Zsum (map (fun n => n * n) l) = N * N.
Proof.
  induction 1 as [|n t Hn Ht IH]; [easy|]. zsum.
  intros [->|Hin] Hsum.
  - rewrite (Zsum_zero_squares t Ht); lia.
  - pose proof (In_le_Zsum t N Ht Hin).
    assert (n = 0) by lia. subst n. rewrite IH; [lia|assumption|lia].
Qed.

Lemma squares_eq_iff (l : list Z) :
  Forall (fun n => 0 <= n) l -> 0 < Zsum l ->
  Zsum (map (fun n => n * n) l) = Zsum l * Zsum l
  <-> List.length (filter (fun n => n =? Zsum l) l) = 1%nat.
Proof.
  intros Hl Hpos. split.
  - intros Heq. pose proof (squares_cross (Zsum l) l) as Hc.
    assert (Hz : Zsum (map (fun n => n * (Zsum l - n)) l) = 0) by lia.
    apply cross_zero in Hz; [|now apply bounded_by_Zsum].
    apply Zsum_zero_or_all in Hz; [|lia]. nia.
  - intros Hone. apply holder_of_all; [assumption| |reflexivity].
    destruct (filter (fun n => n =? Zsum l) l) as [|n t] eqn:Hf; [discriminate|].
    assert (Hin : In n (filter (fun n => n =? Zsum l) l))
      by (rewrite Hf; now left).
    apply filter_In in Hin. destruct Hin as [Hin Hn].
    apply Z.eqb_eq in Hn. now subst n.
Qed.

(** ** Shares and the index as rationals *)

Lemma Qsum_cons (q : Q) (t : list Q) : Qsum (q :: t) = (q + Qsum t)%Q.
Proof. reflexivity. Qed.

Lemma inject_Z_nonzero (z : Z) : 0 < z -> ~ (inject_Z z == 0)%Q.
Proof.
  intros Hz Heq. change 0%Q with (inject_Z 0) in Heq.
  apply (proj1 (inject_Z_injective z 0)) in Heq. lia.
Qed.

Lemma squares_of_shares (c : Q) (l : list Z) :
  ~ (c == 0)%Q ->
  (Qsum (map (fun s => s * s) (map (fun n => inject_Z n / c * 100) l))
   == 10000 / (c * c) * inject_Z (Zsum (map (fun n => (n * n)%Z) l)))%Q.
Proof.
  intros Hc. induction l as [|n t IH].
  - cbn. field. exact Hc.
  - cbn [map]. rewrite Qsum_cons, IH, Zsum_cons, inject_Z_plus, inject_Z_mult.
    field. exact Hc.
Qed.

Lemma share_100 (n N : Z) :
  0 < N -> (lender_share_pct n N == 100)%Q <-> n = N.
Proof.
  intros HN. pose proof (inject_Z_nonzero N HN) as Hc.
  unfold lender_share_pct. rewrite <- inject_Z_injective. split; intros H.
  - assert (Hn : (inject_Z n
                  == inject_Z n / inject_Z N * 100 * (inject_Z N / 100))%Q)
      by (field; exact Hc).
    rewrite Hn, H. field.
  - rewrite H. field. exact Hc.
Qed.

Lemma share_100_bool (n N : Z) :
  0 < N -> Qeq_bool (lender_share_pct n N) 100 = (n =? N).
Proof.
  intros HN. destruct (n =? N) eqn:Hn.
  - apply Z.eqb_eq in Hn. apply (proj2 (Qeq_bool_iff _ _)).
    exact (proj2 (share_100 n N HN) Hn).
  - apply Bool.not_true_iff_false. intros Hq.
    apply (proj1 (Qeq_bool_iff _ _)) in Hq.
    apply (proj1 (share_100 n N HN)) in Hq.
    apply Z.eqb_neq in Hn. contradiction.
Qed.

Lemma one_lender_holds_all_iff (counts : list Z) :
  0 < Zsum counts ->
  one_lender_holds_all counts
  <-> List.length (filter (fun n => n =? Zsum counts) counts) = 1%nat.
Proof.
  intros Hpos. unfold one_lender_holds_all, shares.
  set (N := Zsum counts) in *. clearbody N.
  assert (Hlen : List.length
                   (filter (fun s => Qeq_bool s 100)
                           (map (fun n => lender_share_pct n N) counts))
                 = List.length (filter (fun n => n =? N) counts)).
  { induction counts as [|n t IH]; [reflexivity|].
    cbn [map filter]. rewrite (share_100_bool n N Hpos).
    destruct (n =? N); cbn [List.length]; now rewrite IH. }
  now rewrite Hlen.
Qed.

Lemma hhi_spec_closed (counts : list Z) :
  0 < Zsum counts ->
  (hhi_spec counts
   == 10000 / (inject_Z (Zsum counts) * inject_Z (Zsum counts))
      * inject_Z (Zsum (map (fun n => (n * n)%Z) counts)))%Q.
Proof.
  intros Hpos. unfold hhi_spec, shares, lender_share_pct.
  apply squares_of_shares. now apply inject_Z_nonzero.
Qed.

Lemma hhi_spec_bounds (counts : list Z) :
  Forall (fun n => 0 <= n) counts -> 0 < Zsum counts ->
  (0 < hhi_spec counts)%Q
  /\ (hhi_spec counts <= 10000)%Q
  /\ ((hhi_spec counts == 10000)%Q <-> one_lender_holds_all counts).
Proof.
  intros Hnn Hpos.
  pose proof (hhi_spec_closed counts Hpos) as Hh.
  set (N := Zsum counts) in *.
  set (S := Zsum (map (fun n => n * n) counts)) in *.
  set (K := (10000 / (inject_Z N * inject_Z N))%Q) in *.
  pose proof (inject_Z_nonzero N Hpos) as Hc.
  assert (HK : (0 < K)%Q).
  { unfold K. apply Qmult_lt_0_compat; [reflexivity|].
    apply Qinv_lt_0_compat. apply Qmult_lt_0_compat;
      change 0%Q with (inject_Z 0); now rewrite <- Zlt_Qlt. }
  assert (Htop : (10000 == K * inject_Z (N * N))%Q).
  { unfold K. rewrite inject_Z_mult. field. exact Hc. }
  split; [|split].
  - rewrite Hh. setoid_replace 0%Q with (K * inject_Z 0)%Q by ring.
    apply Qmult_lt_l; [exact HK|]. rewrite <- Zlt_Qlt.
    now apply squares_pos.
  - rewrite Hh, Htop. apply Qmult_le_l; [exact HK|]. rewrite <- Zle_Qle.
    now apply squares_le.
  - rewrite Hh, Htop, one_lender_holds_all_iff by exact Hpos.
    rewrite Qmult_inj_l, inject_Z_injective.
    + now apply squares_eq_iff.
    + intros HK0. rewrite HK0 in HK. now apply Qlt_irrefl in HK.
Qed.

(** ** The scorer: records *)

Lemma for_each_In {X Y : Type} (body : X -> option (list Y)) (xs : list X) :
  (forall x, In x xs -> exists ys, body x = Some ys) ->
  exists out,
    for_each body xs = Some out
    /\ forall y, In y out
                 <-> exists x ys, In x xs /\ body x = Some ys /\ In y ys.
Proof.
  induction xs as [|x rest IH]; intros Hbody.
  - exists []. split; [reflexivity|]. intros y. split; [easy|].
    intros (x & ys & [] & _).
  - destruct (Hbody x (or_introl eq_refl)) as [ys Hys].
    destruct IH as (zs & Hzs & Hin).
    { intros x' Hx'. apply Hbody. now right. }
    exists (ys ++ zs). cbn [for_each]. rewrite Hys, Hzs.
    split; [reflexivity|]. intros y. rewrite in_app_iff, Hin. split.
    + intros [Hy|(x' & ys' & Hx' & Hb & Hy)].
      * exists x, ys. repeat split; [now left|assumption|assumption].
      * exists x', ys'. repeat split; [now right|assumption|assumption].
    + intros (x' & ys' & [<-|Hx'] & Hb & Hy).
      * left. congruence.
      * right. now exists x', ys'.
Qed.

Lemma scored_group (rows : list Row.t) (b : string) :
  group scored_bin
        (add_std_dev (keep_min_bin_num_loans (add_lender_num_loans_pct rows))) b
  = if BIN_NUM_LOANS_MIN_THREASHOLD <=? Zsum (segment_counts rows b)
    then
      map (fun r =>
             Frame.mks
               (Frame.mk (Row.lender r) b (Row.num_loans r)
                  (Zsum (segment_counts rows b))
                  (F.FNum (lender_share_pct (Row.num_loans r)
                                            (Zsum (segment_counts rows b)))))
               (F.std (map F.FNum (shares (segment_counts rows b)))))
          (group Row.loan_amount_bin rows b)
    else [].
Proof.
  unfold add_std_dev.
  rewrite (group_map Frame.loan_amount_bin scored_bin) by reflexivity.
  rewrite keep_min_bin_num_loans_group.
  destruct (BIN_NUM_LOANS_MIN_THREASHOLD <=? Zsum (segment_counts rows b))
    eqn:Hle; [|reflexivity].
  assert (Hpos : 0 < Zsum (segment_counts rows b)).
  { apply Z.leb_le in Hle. unfold BIN_NUM_LOANS_MIN_THREASHOLD in Hle. lia. }
  rewrite add_lender_num_loans_pct_group, map_map.
  apply map_ext. intros r. cbn [Frame.loan_amount_bin].
  rewrite keep_min_bin_num_loans_group, Hle, add_lender_num_loans_pct_group.
  rewrite map_map. cbn [Frame.lender_num_loans_pct].
  rewrite (pct_number _ _ Hpos). f_equal.
  f_equal. unfold shares, segment_counts. rewrite !map_map.
  apply map_ext. intros r'. now apply pct_number.
Qed.

Lemma score_city_spec (categories : list string) (city : string)
  (rows : list Row.t) :
  exists out,
    score_city categories city rows = Some out
    /\ forall rec,
        In rec out
        <-> exists b,
            In b categories
            /\ segment_counts rows b <> []
            /\ BIN_NUM_LOANS_MIN_THREASHOLD <= Zsum (segment_counts rows b)
            /\ rec = segment_record city rows b.
Proof.
  unfold score_city.
  set (frame := add_std_dev
                  (keep_min_bin_num_loans (add_lender_num_loans_pct rows))).
  set (h := fun g : list Frame.scored =>
              F.sum (map (fun r => F.sq (Frame.lender_num_loans_pct
                                           (Frame.base r))) g)).
  set (records := fun bg : string * list Frame.scored =>
                    match snd bg with
                    | [] => []
                    | first :: _ =>
                        [Score.mk city (fst bg)
                           (Frame.bin_num_loans (Frame.base first))
                           (Frame.bin_num_loans_pct_std_dev first)
                           (h (snd bg))]
                    end).
  exists (flat_map records (groupby scored_bin categories frame)). split.
  - apply for_each_total. intros [b g] Hin.
    apply groupby_In in Hin. destruct Hin as (Hb & Hg & Hne).
    unfold records. cbn [fst snd]. destruct g as [|first rest]; [congruence|].
    assert (Hs : series_get (hhi_by_bin categories frame) b
                 = Some (h (group scored_bin frame b))).
    { apply (series_get_groupby scored_bin h categories frame b Hb).
      rewrite <- Hg. discriminate. }
    rewrite Hs. now rewrite <- Hg.
  - assert (Hrec : forall b,
               records (b, group scored_bin frame b)
               = match segment_counts rows b with
                 | [] => []
                 | _ :: _ =>
                     if BIN_NUM_LOANS_MIN_THREASHOLD
                        <=? Zsum (segment_counts rows b)
                     then [segment_record city rows b]
                     else []
                 end).
    { intros b. unfold records, frame, h. cbn [fst snd].
      rewrite scored_group. unfold segment_record.
      generalize (eq_refl : segment_counts rows b
                            = map Row.num_loans
                                  (group Row.loan_amount_bin rows b)).
      generalize (segment_counts rows b) as counts. intros counts Hc.
      destruct (group Row.loan_amount_bin rows b) as [|r0 rest0]; subst counts.
      - cbn [map]. now destruct (_ <=? _).
      - cbn [map]. destruct (_ <=? _); [|reflexivity].
        unfold shares. cbn [map]. rewrite !map_map. reflexivity. }
    intros rec. rewrite in_flat_map. split.
    + intros ([b g] & Hin & Hrecin).
      apply groupby_In in Hin. destruct Hin as (Hb & -> & Hne).
      rewrite Hrec in Hrecin. exists b.
      destruct (segment_counts rows b) eqn:Hc; [easy|].
      destruct (_ <=? _) eqn:Hle in Hrecin; [|easy].
      destruct Hrecin as [<-|[]]. apply Z.leb_le in Hle.
      repeat split; [assumption|discriminate|assumption].
    + intros (b & Hb & Hne & Hle & ->).
      exists (b, group scored_bin frame b).
      assert (Hin : In (segment_record city rows b)
                       (records (b, group scored_bin frame b))).
      { rewrite Hrec. destruct (segment_counts rows b); [congruence|].
        apply Z.leb_le in Hle. rewrite Hle. now left. }
      split; [|exact Hin].
      apply groupby_In. repeat split; [assumption|].
      intros Hnil. unfold records in Hin. cbn [snd] in Hin.
      now rewrite Hnil in Hin.
Qed.

Section ScorerFacts.
Variable BIN_EDGE_TO_LABEL : list (Z * string).
Variable get_lender_to_loan_amount_bins :
  list Loan.t -> list Z -> list string -> list Row.t.

Lemma score_records_spec (df : list Loan.t) (cities : list string) :
  exists recs,
    _get_score_records BIN_EDGE_TO_LABEL get_lender_to_loan_amount_bins
                       df cities = Some recs
    /\ forall rec,
        In rec recs
        <-> exists city b,
            let rows := city_rows BIN_EDGE_TO_LABEL
                          get_lender_to_loan_amount_bins df cities city in
            In city (city_keys (listed_rows df cities))
            /\ In b (bin_labels BIN_EDGE_TO_LABEL)
            /\ segment_counts rows b <> []
            /\ BIN_NUM_LOANS_MIN_THREASHOLD <= Zsum (segment_counts rows b)
            /\ rec = segment_record city rows b.
Proof.
  unfold _get_score_records.
  set (body := fun item : string * list Loan.t =>
                 score_city (bin_labels BIN_EDGE_TO_LABEL) (fst item)
                   (lender_rows BIN_EDGE_TO_LABEL
                      get_lender_to_loan_amount_bins (snd item))).
  assert (Hitem : forall item,
             In item (city_to_df df cities)
             <-> exists city,
                 In city (city_keys (listed_rows df cities))
                 /\ item = (city, city_group (listed_rows df cities) city)).
  { intros item. unfold city_to_df. rewrite in_map_iff. split.
    - intros (city & <- & Hcity). now exists city.
    - intros (city & Hcity & ->). now exists city. }
  destruct (for_each_In body (city_to_df df cities)) as (recs & Hrecs & Hin).
  { intros item _. unfold body.
    destruct (score_city_spec (bin_labels BIN_EDGE_TO_LABEL) (fst item)
                (lender_rows BIN_EDGE_TO_LABEL get_lender_to_loan_amount_bins
                             (snd item))) as (out & Hout & _).
    now exists out. }
  exists recs. split; [exact Hrecs|]. intros rec. rewrite Hin. split.
  - intros (item & out & Hi & Hout & Hrec).
    apply Hitem in Hi. destruct Hi as (city & Hcity & ->).
    unfold body in Hout. cbn [fst snd] in Hout.
    destruct (score_city_spec (bin_labels BIN_EDGE_TO_LABEL) city
                (city_rows BIN_EDGE_TO_LABEL get_lender_to_loan_amount_bins
                           df cities city)) as (out' & Hout' & Hspec).
    unfold city_rows in Hout'. rewrite Hout in Hout'. injection Hout' as <-.
    apply Hspec in Hrec. destruct Hrec as (b & Hb & Hne & Hle & ->).
    exists city, b. cbn zeta. auto.
  - intros (city & b & Hcity & Hb & Hne & Hle & ->).
    destruct (score_city_spec (bin_labels BIN_EDGE_TO_LABEL) city
                (city_rows BIN_EDGE_TO_LABEL get_lender_to_loan_amount_bins
                           df cities city)) as (out & Hout & Hspec).
    exists (city, city_group (listed_rows df cities) city), out.
    split; [apply Hitem; now exists city|].
    split; [exact Hout|]. apply Hspec. now exists b.
Qed.

(** Every record carries the values of its own segment. *)
Lemma score_records_segment (df : list Loan.t) (cities : list string) :
  exists recs,
    _get_score_records BIN_EDGE_TO_LABEL get_lender_to_loan_amount_bins
                       df cities = Some recs
    /\ forall rec,
        In rec recs ->
        let counts :=
          segment_counts
            (city_rows BIN_EDGE_TO_LABEL get_lender_to_loan_amount_bins
                       df cities (Score.city rec))
            (Score.loan_amount_bin rec) in
        counts <> []
        /\ BIN_NUM_LOANS_MIN_THREASHOLD <= Zsum counts
        /\ Score.bin_num_loans rec = Zsum counts
        /\ Score.bin_num_loans_pct_std_dev rec
           = F.std (map F.FNum (shares counts))
        /\ Score.hhi rec
           = F.sum (map (fun s => F.FNum (s * s)) (shares counts)).
Proof.
  destruct (score_records_spec df cities) as (recs & Hrecs & Hin).
  exists recs. split; [exact Hrecs|]. intros rec Hrec.
  apply Hin in Hrec. destruct Hrec as (city & b & _ & _ & Hne & Hle & ->).
  cbn. auto.
Qed.

End ScorerFacts.

Lemma segment_counts_nonneg (rows : list Row.t) (b : string) :
  (forall r, In r rows -> 0 <= Row.num_loans r) ->
  Forall (fun n => 0 <= n) (segment_counts rows b).
Proof.
  intros Hrows. apply Forall_forall. intros n Hn.
  unfold segment_counts in Hn. apply in_map_iff in Hn.
  destruct Hn as (r & <- & Hr). apply group_In in Hr. now apply Hrows.
Qed.

Lemma segment_record_hhi (city : string) (rows : list Row.t) (b : string) :
  exists h, Score.hhi (segment_record city rows b) = F.FNum h
            /\ (h == hhi_spec (segment_counts rows b))%Q.
Proof.
  unfold segment_record. cbn [Score.hhi].
  rewrite <- (map_map (fun s => (s * s)%Q) F.FNum).
  apply sum_nums_Qsum.
Qed.

(** ** The lender aggregator counts *)

Lemma count_loan_nonneg (lender bin : string) (rows : list Row.t) :
  Forall (fun r => 0 <= Row.num_loans r) rows ->
  Forall (fun r => 0 <= Row.num_loans r) (count_loan lender bin rows).
Proof.
  induction 1 as [|r t Hr Ht IH]; cbn [count_loan].
  - repeat constructor. cbn. lia.
  - destruct (_ && _); constructor; try assumption. cbn. lia.
Qed.

Lemma lender_aggregator_nonneg (df : list Loan.t) (edges : list Z)
  (labels : list string) (r : Row.t) :
  In r (lender_aggregator df edges labels) -> 0 <= Row.num_loans r.
Proof.
  unfold lender_aggregator.
  assert (Hgen : forall acc,
             Forall (fun r => 0 <= Row.num_loans r) acc ->
             Forall (fun r => 0 <= Row.num_loans r)
                    (fold_left
                       (fun rows l =>
                          match loan_bin l edges labels with
                          | Some bin => count_loan (Loan.lender l) bin rows
                          | None => rows
                          end) df acc)).
  { induction df as [|l t IH]; intros acc Hacc; [exact Hacc|].
    cbn [fold_left]. apply IH.
    destruct (loan_bin l edges labels); [|exact Hacc].
    now apply count_loan_nonneg. }
  intros Hin. specialize (Hgen [] (Forall_nil _)).
  rewrite Forall_forall in Hgen. now apply Hgen.
Qed.

(** ** The scorer: claims *)

Section ScorerClaims.
Variable BIN_EDGE_TO_LABEL : list (Z * string).
Variable get_lender_to_loan_amount_bins :
  list Loan.t -> list Z -> list string -> list Row.t.
Variable df : list Loan.t.
Variable above_threshold_cities : list string.

(** C9: the scorer returns, and every score record it returns has
    bin_num_loans, the total of the lender counts of its segment, at least
    10. *)
Theorem score_records_min_bin_num_loans :
  exists recs,
    _get_score_records BIN_EDGE_TO_LABEL get_lender_to_loan_amount_bins
                       df above_threshold_cities = Some recs
    /\ forall rec,
        In rec recs ->
        10 <= Score.bin_num_loans rec
        /\ Score.bin_num_loans rec
           = Zsum (segment_counts
                     (city_rows BIN_EDGE_TO_LABEL get_lender_to_loan_amount_bins
                                df above_threshold_cities (Score.city rec))
                     (Score.loan_amount_bin rec)).
Proof.
  destruct (score_records_segment BIN_EDGE_TO_LABEL
              get_lender_to_loan_amount_bins df above_threshold_cities)
    as (recs & Hrecs & Hseg).
  exists recs. split; [exact Hrecs|]. intros rec Hrec.
  destruct (Hseg rec Hrec) as (_ & Hle & Heq & _).
  split; [|exact Heq]. rewrite Heq. exact Hle.
Qed.

(** C1: when the aggregator's counts are not negative, the scorer returns,
    and the hhi of every score record is the sum, over the lenders of its
    segment, of the squared share, the share being lender_num_loans /
    bin_num_loans × 100; it lies in (0, 10000] and is 10000 exactly when one
    lender holds a share of 100. *)
Theorem hhi_sum_of_squared_shares :
  (forall d e l r,
      In r (get_lender_to_loan_amount_bins d e l) -> 0 <= Row.num_loans r) ->
  exists recs,
    _get_score_records BIN_EDGE_TO_LABEL get_lender_to_loan_amount_bins
                       df above_threshold_cities = Some recs
    /\ forall rec,
        In rec recs ->
        let counts :=
          segment_counts
            (city_rows BIN_EDGE_TO_LABEL get_lender_to_loan_amount_bins
                       df above_threshold_cities (Score.city rec))
            (Score.loan_amount_bin rec) in
        Score.bin_num_loans rec = Zsum counts
        /\ exists h,
            Score.hhi rec = F.FNum h
            /\ (h == hhi_spec counts)%Q
            /\ (0 < h)%Q /\ (h <= 10000)%Q
            /\ ((h == 10000)%Q <-> one_lender_holds_all counts).
Proof.
  intros Hnn.
  destruct (score_records_segment BIN_EDGE_TO_LABEL
              get_lender_to_loan_amount_bins df above_threshold_cities)
    as (recs & Hrecs & Hseg).
  exists recs. split; [exact Hrecs|]. intros rec Hrec counts.
  destruct (Hseg rec Hrec) as (_ & Hle & Heq & _ & Hhhi).
  fold counts in Hle, Heq, Hhhi. split; [exact Heq|].
  destruct (segment_record_hhi (Score.city rec)
              (city_rows BIN_EDGE_TO_LABEL get_lender_to_loan_amount_bins
                         df above_threshold_cities (Score.city rec))
              (Score.loan_amount_bin rec)) as (h & Hh & Hspec).
  fold counts in Hspec. cbn [segment_record Score.hhi] in Hh.
  fold counts in Hh. rewrite <- Hhhi in Hh.
  exists h. split; [exact Hh|]. split; [exact Hspec|].
  assert (Hpos : 0 < Zsum counts)
    by (unfold BIN_NUM_LOANS_MIN_THREASHOLD in Hle; lia).
  assert (Hcounts : Forall (fun n => 0 <= n) counts).
  { apply segment_counts_nonneg. intros r. apply Hnn. }
  destruct (hhi_spec_bounds counts Hcounts Hpos) as (H0 & H1 & H2).
  rewrite Hspec. auto.
Qed.

(** C7: the scorer returns, and the bin_num_loans_pct_std_dev of every score
    record is the root of the sample variance (denominator N - 1) of the
    lender shares of its segment when the segment has two lenders or more,
    and is NaN when it has one; the record is returned with that NaN. *)
Theorem std_dev_sample_or_nan :
  exists recs,
    _get_score_records BIN_EDGE_TO_LABEL get_lender_to_loan_amount_bins
                       df above_threshold_cities = Some recs
    /\ forall rec,
        In rec recs ->
        let counts :=
          segment_counts
            (city_rows BIN_EDGE_TO_LABEL get_lender_to_loan_amount_bins
                       df above_threshold_cities (Score.city rec))
            (Score.loan_amount_bin rec) in
        (List.length counts = 1%nat ->
         Score.bin_num_loans_pct_std_dev rec = F.Root F.FNaN)
        /\ ((2 <= List.length counts)%nat ->
            exists v,
              Score.bin_num_loans_pct_std_dev rec = F.Root (F.FNum v)
              /\ (v == sample_variance (shares counts))%Q).
Proof.
  destruct (score_records_segment BIN_EDGE_TO_LABEL
              get_lender_to_loan_amount_bins df above_threshold_cities)
    as (recs & Hrecs & Hseg).
  exists recs. split; [exact Hrecs|]. intros rec Hrec counts.
  destruct (Hseg rec Hrec) as (_ & _ & _ & Hstd & _). fold counts in Hstd.
  rewrite Hstd. split.
  - intros Hone. destruct counts as [|n [|m t]]; try discriminate Hone.
    reflexivity.
  - intros Htwo. apply std_nums. unfold shares. now rewrite length_map.
Qed.

End ScorerClaims.

Lemma sample_records_computed :
  _get_score_records bin_edge_to_label lender_aggregator sample_df
                     sample_cities = Some sample_records.
Proof. vm_compute. reflexivity. Qed.

Lemma score_records_min_bin_num_loans_witness :
  exists recs,
    _get_score_records bin_edge_to_label lender_aggregator sample_df
                       sample_cities = Some recs
    /\ forall rec,
        In rec recs ->
        10 <= Score.bin_num_loans rec
        /\ Score.bin_num_loans rec
           = Zsum (segment_counts
                     (city_rows bin_edge_to_label lender_aggregator
                                sample_df sample_cities (Score.city rec))
                     (Score.loan_amount_bin rec)).
Proof.
  exact (score_records_min_bin_num_loans bin_edge_to_label lender_aggregator
           sample_df sample_cities).
Defined.

Lemma hhi_sum_of_squared_shares_witness :
  (forall d e l r, In r (lender_aggregator d e l) -> 0 <= Row.num_loans r)
  /\ exists recs,
      _get_score_records bin_edge_to_label lender_aggregator sample_df
                         sample_cities = Some recs
      /\ forall rec,
          In rec recs ->
          let counts :=
            segment_counts
              (city_rows bin_edge_to_label lender_aggregator
                         sample_df sample_cities (Score.city rec))
              (Score.loan_amount_bin rec) in
          Score.bin_num_loans rec = Zsum counts
          /\ exists h,
              Score.hhi rec = F.FNum h
              /\ (h == hhi_spec counts)%Q
              /\ (0 < h)%Q /\ (h <= 10000)%Q
              /\ ((h == 10000)%Q <-> one_lender_holds_all counts).
Proof.
  split; [exact lender_aggregator_nonneg|].
  exact (hhi_sum_of_squared_shares bin_edge_to_label lender_aggregator
           sample_df sample_cities lender_aggregator_nonneg).
Defined.

Lemma std_dev_sample_or_nan_witness :
  exists recs rec,
    _get_score_records bin_edge_to_label lender_aggregator sample_df
                       sample_cities = Some recs
    /\ In rec recs
    /\ Score.city rec = "SALEM"
    /\ Score.bin_num_loans_pct_std_dev rec = F.Root F.FNaN.
Proof.
  destruct (std_dev_sample_or_nan bin_edge_to_label lender_aggregator
              sample_df sample_cities) as (recs & Hrecs & Hall).
  exists recs, (Score.mk "SALEM" "$50K - $100K" 12 (F.Root F.FNaN)
                         (F.FNum (1440000 # 144))).
  assert (Hin : In (Score.mk "SALEM" "$50K - $100K" 12 (F.Root F.FNaN)
                             (F.FNum (1440000 # 144))) recs).
  { pose proof sample_records_computed as Hval.
    rewrite Hrecs in Hval. injection Hval as ->. right. now left. }
  split; [exact Hrecs|]. split; [exact Hin|]. split; [reflexivity|].
  apply (proj1 (Hall _ Hin)). vm_compute. reflexivity.
Defined.

(** C2, as stated, fails: the percentage is computed before any group is
    dropped.  The three loans of DOVER in the lowest bin form a group with
    bin_num_loans = 3; its row carries a lender_num_loans_pct, and only then is
    the group dropped.  A group whose counts are all zero is divided by zero,
    which gives NaN. *)
Lemma pct_computed_before_groups_dropped :
  add_lender_num_loans_pct dover_rows
  = [ Frame.mk "A" "$100K - $250K" 8 12 (F.FNum (800 # 12));
      Frame.mk "B" "$100K - $250K" 4 12 (F.FNum (400 # 12));
      Frame.mk "B" "$0 - $50K" 3 3 (F.FNum (300 # 3)) ]
  /\ keep_min_bin_num_loans (add_lender_num_loans_pct dover_rows)
     = [ Frame.mk "A" "$100K - $250K" 8 12 (F.FNum (800 # 12));
         Frame.mk "B" "$100K - $250K" 4 12 (F.FNum (400 # 12)) ]
  /\ add_lender_num_loans_pct [Row.mk "A" "$0 - $50K" 0]
     = [Frame.mk "A" "$0 - $50K" 0 0 F.FNaN].
Proof. repeat split; vm_compute; reflexivity. Qed.

(** C2, amended: the scorer computes lender_num_loans_pct for every row of
    the aggregator's frame, whatever the row's bin_num_loans; the division
    does not raise, a zero bin_num_loans leaves a cell that is no finite
    number.  The groups with bin_num_loans below 10 are dropped after that and
    before the dispersion and the index are computed, so that every cell they
    are computed from is the number num_loans / bin_num_loans × 100 with
    bin_num_loans at least 10. *)
Theorem pct_then_groups_dropped (rows : list Row.t) :
  List.length (add_lender_num_loans_pct rows) = List.length rows
  /\ (forall r, In r (add_lender_num_loans_pct rows) ->
                Frame.bin_num_loans r = 0 ->
                F.is_finite (Frame.lender_num_loans_pct r) = false)
  /\ (forall r, In r (keep_min_bin_num_loans (add_lender_num_loans_pct rows)) ->
                10 <= Frame.bin_num_loans r
                /\ Frame.lender_num_loans_pct r
                   = F.FNum (lender_share_pct (Frame.num_loans r)
                                              (Frame.bin_num_loans r))).
Proof.
  split; [apply length_map|]. split.
  - intros r Hr Hzero. unfold add_lender_num_loans_pct in Hr.
    apply in_map_iff in Hr. destruct Hr as (r0 & <- & _).
    cbn [Frame.bin_num_loans Frame.lender_num_loans_pct] in *.
    rewrite Hzero. apply pct_zero_divisor.
  - intros r Hr. unfold keep_min_bin_num_loans in Hr.
    apply filter_In in Hr. destruct Hr as [Hr Hle].
    apply Z.leb_le in Hle. unfold BIN_NUM_LOANS_MIN_THREASHOLD in Hle.
    split; [exact Hle|].
    unfold add_lender_num_loans_pct in Hr.
    apply in_map_iff in Hr. destruct Hr as (r0 & <- & _).
    cbn [Frame.bin_num_loans Frame.lender_num_loans_pct Frame.num_loans] in *.
    apply pct_number. lia.
Qed.

Lemma pct_then_groups_dropped_witness :
  In (Frame.mk "A" "$100K - $250K" 8 12 (F.FNum (800 # 12)))
     (keep_min_bin_num_loans (add_lender_num_loans_pct dover_rows))
  /\ 10 <= 12
  /\ F.FNum (800 # 12) = F.FNum (lender_share_pct 8 12).
Proof.
  assert (Hin : In (Frame.mk "A" "$100K - $250K" 8 12 (F.FNum (800 # 12)))
                   (keep_min_bin_num_loans
                      (add_lender_num_loans_pct dover_rows)))
    by (vm_compute; now left).
  split; [exact Hin|].
  exact (proj2 (proj2 (pct_then_groups_dropped dover_rows)) _ Hin).
Defined.

(** * Further properties *)

(** ** The city threshold *)

Lemma city_keys_In (df : list Loan.t) (c : string) :
  In c (city_keys df) <-> In c (map Loan.city df).
Proof.
  unfold city_keys. rewrite nodup_In. split; intros Hin.
  - apply (Permutation_in _ (Permutation_sym (sorted_perm _ _ _)) Hin).
  - apply (Permutation_in _ (sorted_perm _ _ _) Hin).
Qed.

Lemma city_keys_NoDup (df : list Loan.t) : NoDup (city_keys df).
Proof. apply NoDup_nodup. Qed.

Lemma city_group_In (df : list Loan.t) (c : string) (l : Loan.t) :
  In l (city_group df c) <-> In l df /\ Loan.city l = c.
Proof. unfold city_group. now rewrite filter_In, String.eqb_eq. Qed.

Lemma city_group_positive (df : list Loan.t) (c : string) :
  0 < Z.of_nat (List.length (city_group df c)) <-> In c (map Loan.city df).
Proof.
  rewrite in_map_iff. split.
  - intros Hpos. destruct (city_group df c) as [|l t] eqn:Hg; [cbn in Hpos; lia|].
    assert (Hl : In l (city_group df c)) by (rewrite Hg; now left).
    apply city_group_In in Hl. destruct Hl as [Hl Hc]. now exists l.
  - intros (l & Hc & Hl).
    assert (Hin : In l (city_group df c)) by now apply city_group_In.
    destruct (city_group df c); [easy|cbn; lia].
Qed.

Lemma city_loan_counts_In (df : list Loan.t) (c : string) (n : Z) :
  In (c, n) (city_loan_counts df)
  <-> n = Z.of_nat (List.length (city_group df c)) /\ 0 < n.
Proof.
  unfold city_loan_counts. rewrite in_map_iff. split.
  - intros (c' & Heq & Hin). injection Heq as -> <-. split; [reflexivity|].
    apply city_group_positive. now apply city_keys_In.
  - intros [-> Hpos]. exists c. split; [reflexivity|].
    apply city_keys_In. now apply city_group_positive.
Qed.

Lemma city_loan_counts_keys (df : list Loan.t) :
  map fst (city_loan_counts df) = city_keys df.
Proof.
  unfold city_loan_counts. rewrite map_map. cbn [fst]. apply map_id.
Qed.

Lemma NoDup_filter_fst {B : Type} (p : string * B -> bool)
  (l : list (string * B)) :
  NoDup (map fst l) -> NoDup (map fst (filter p l)).
Proof.
  induction l as [|x t IH]; cbn [map filter]; intros Hnd; [constructor|].
  inversion Hnd as [|? ? Hx Ht]; subst.
  destruct (p x); [|now apply IH]. cbn [map]. constructor; [|now apply IH].
  intros Hin. apply Hx. apply in_map_iff in Hin.
  destruct Hin as (y & Hy & Hin). apply filter_In in Hin.
  apply in_map_iff. exists y. tauto.
Qed.

Lemma above_threshold_In (df : list Loan.t) (c : string) (n : Z) :
  In (c, n) (snd (_get_above_threshold_df df))
  <-> n = Z.of_nat (List.length (city_group df c)) /\ 10 <= n.
Proof.
  unfold _get_above_threshold_df. cbn [snd].
  rewrite filter_In, city_loan_counts_In. cbn [snd].
  unfold CITY_NUM_LOANS_MIN_THREASHOLD. rewrite Z.leb_le. lia.
Qed.

(** X1: [_get_above_threshold_df] returns exactly the cities of the frame
    that have at least 10 rows, each once and with its row count, and prints
    exactly the cities that have fewer. *)
Theorem above_threshold_exact (df : list Loan.t) :
  (forall c n,
      In (c, n) (snd (_get_above_threshold_df df))
      <-> n = Z.of_nat (List.length (city_group df c)) /\ 10 <= n)
  /\ (forall c n,
         In (CityLoanCount c n) (fst (_get_above_threshold_df df))
         <-> n = Z.of_nat (List.length (city_group df c)) /\ 0 < n < 10)
  /\ NoDup (above_threshold_cities_of df).
Proof.
  split; [apply above_threshold_In|].
  unfold above_threshold_cities_of, _get_above_threshold_df. cbn [fst snd].
  split.
  - intros c n. split.
    + intros [Hd|Hin]; [discriminate Hd|].
      apply in_map_iff in Hin. destruct Hin as ([c' n'] & Heq & Hin).
      cbn [fst snd] in Heq. injection Heq as -> ->.
      apply filter_In in Hin. rewrite city_loan_counts_In in Hin.
      cbn [snd] in Hin. unfold CITY_NUM_LOANS_MIN_THREASHOLD in Hin.
      rewrite Z.ltb_lt in Hin. lia.
    + intros (Hn & Hpos & Hlt). right. apply in_map_iff.
      exists (c, n). split; [reflexivity|].
      apply filter_In. rewrite city_loan_counts_In. cbn [snd].
      unfold CITY_NUM_LOANS_MIN_THREASHOLD. rewrite Z.ltb_lt. lia.
  - apply NoDup_filter_fst. rewrite city_loan_counts_keys.
    apply city_keys_NoDup.
Qed.

Lemma above_threshold_exact_witness :
  _get_above_threshold_df sample_df
  = ([DisregardNotice 10; CityLoanCount "LYNN" 3],
     [("DOVER", 15); ("SALEM", 12)])
  /\ NoDup (above_threshold_cities_of sample_df).
Proof.
  split; [vm_compute; reflexivity|].
  exact (proj2 (proj2 (above_threshold_exact sample_df))).
Defined.

Lemma indicator_sum (keys : list string) (c : string) :
  NoDup keys -> In c keys ->
  Zsum (map (fun k => if String.eqb c k then 1 else 0) keys) = 1.
Proof.
  induction 1 as [|k t Hk Ht IH]; [easy|]. intros Hin. zsum.
  destruct (String.eqb c k) eqn:Hck.
  - apply String.eqb_eq in Hck. subst k.
    assert (Hz : Zsum (map (fun k => if String.eqb c k then 1 else 0) t) = 0).
    { clear IH Ht Hin. induction t as [|k t IH]; [reflexivity|]. zsum.
      destruct (String.eqb c k) eqn:Hck.
      - apply String.eqb_eq in Hck. subst k. exfalso. apply Hk. now left.
      - rewrite IH; [lia|]. intros Hin. apply Hk. now right. }
    lia.
  - apply String.eqb_neq in Hck. destruct Hin as [Heq|Hin]; [congruence|].
    rewrite (IH Hin). lia.
Qed.

Lemma group_sizes_sum (keys : list string) (df : list Loan.t) :
  NoDup keys -> (forall l, In l df -> In (Loan.city l) keys) ->
  Zsum (map (fun k => Z.of_nat (List.length (city_group df k))) keys)
  = Z.of_nat (List.length df).
Proof.
  intros Hnd. induction df as [|l t IH]; intros Hcover.
  - clear Hnd Hcover. induction keys as [|k ks IHk]; [reflexivity|].
    zsum. rewrite IHk. reflexivity.
  - assert (Hsplit :
      forall ks,
        Zsum (map (fun k => Z.of_nat (List.length (city_group (l :: t) k))) ks)
        = Zsum (map (fun k => if String.eqb (Loan.city l) k then 1 else 0) ks)
          + Zsum (map (fun k => Z.of_nat (List.length (city_group t k))) ks)).
    { induction ks as [|k ks IHk]; [reflexivity|]. zsum. rewrite IHk.
      unfold city_group at 1. cbn [filter].
      fold (city_group t k).
      destruct (String.eqb (Loan.city l) k); cbn [List.length]; lia. }
    rewrite Hsplit, indicator_sum, IH.
    + cbn [List.length]. lia.
    + intros l' Hl'. apply Hcover. now right.
    + exact Hnd.
    + apply Hcover. now left.
Qed.

(** X2: the loan counts of [city_loan_counts], the [groupby("city").size()]
    of [_get_above_threshold_df], add up to the number of rows of the frame:
    every row is counted for exactly one city. *)
Theorem city_loan_counts_total (df : list Loan.t) :
  Zsum (map snd (city_loan_counts df)) = Z.of_nat (List.length df).
Proof.
  unfold city_loan_counts. rewrite map_map. cbn [snd].
  apply group_sizes_sum; [apply city_keys_NoDup|].
  intros l Hl. apply city_keys_In. now apply in_map.
Qed.

(** ** The scorer behind the city threshold *)

Lemma listed_rows_In (df : list Loan.t) (cities : list string) (l : Loan.t) :
  In l (listed_rows df cities) <-> In l df /\ In (Loan.city l) cities.
Proof.
  unfold listed_rows. rewrite filter_In, existsb_exists. split.
  - intros (Hl & c & Hc & Heq). apply String.eqb_eq in Heq. now subst c.
  - intros (Hl & Hc). split; [assumption|].
    exists (Loan.city l). split; [assumption|apply String.eqb_refl].
Qed.

Lemma city_group_listed (df : list Loan.t) (cities : list string) (c : string) :
  In c cities -> city_group (listed_rows df cities) c = city_group df c.
Proof.
  intros Hc. unfold city_group, listed_rows.
  induction df as [|l t IH]; [reflexivity|]. cbn [filter].
  destruct (String.eqb (Loan.city l) c) eqn:Hlc.
  - apply String.eqb_eq in Hlc.
    assert (Hex : existsb (String.eqb (Loan.city l)) cities = true).
    { apply existsb_exists. exists c. split; [assumption|].
      now apply String.eqb_eq. }
    rewrite Hex. cbn [filter]. rewrite (proj2 (String.eqb_eq _ _) Hlc).
    now rewrite IH.
  - destruct (existsb (String.eqb (Loan.city l)) cities); [|exact IH].
    cbn [filter]. now rewrite Hlc.
Qed.

Lemma listed_city_key (df : list Loan.t) (cities : list string) (c : string) :
  In c (city_keys (listed_rows df cities)) -> In c cities.
Proof.
  intros Hin. apply city_keys_In, in_map_iff in Hin.
  destruct Hin as (l & <- & Hl). now apply listed_rows_In in Hl.
Qed.

(** X3: run on the cities [_get_above_threshold_df] returns, as [render_page]
    runs it, the scorer returns, and each score record belongs to a city with
    at least 10 loans in the frame; the aggregator's frame of that city is
    built from all the loans of the city. *)
Theorem scored_cities_reach_threshold
  (BIN_EDGE_TO_LABEL : list (Z * string))
  (get_lender_to_loan_amount_bins :
     list Loan.t -> list Z -> list string -> list Row.t)
  (df : list Loan.t) :
  exists recs,
    _get_score_records BIN_EDGE_TO_LABEL get_lender_to_loan_amount_bins
                       df (above_threshold_cities_of df) = Some recs
    /\ forall rec,
        In rec recs ->
        10 <= Z.of_nat (List.length (city_group df (Score.city rec)))
        /\ city_rows BIN_EDGE_TO_LABEL get_lender_to_loan_amount_bins
                     df (above_threshold_cities_of df) (Score.city rec)
           = lender_rows BIN_EDGE_TO_LABEL get_lender_to_loan_amount_bins
                         (city_group df (Score.city rec)).
Proof.
  destruct (score_records_spec BIN_EDGE_TO_LABEL
              get_lender_to_loan_amount_bins df (above_threshold_cities_of df))
    as (recs & Hrecs & Hin).
  exists recs. split; [exact Hrecs|]. intros rec Hrec.
  apply Hin in Hrec. destruct Hrec as (city & b & Hcity & _ & _ & _ & ->).
  cbn [segment_record Score.city].
  apply listed_city_key in Hcity.
  split.
  - unfold above_threshold_cities_of in Hcity. apply in_map_iff in Hcity.
    destruct Hcity as ([c n] & Hc & Hcn). cbn [fst] in Hc. subst c.
    apply above_threshold_In in Hcn. lia.
  - unfold city_rows. now rewrite city_group_listed.
Qed.

Lemma score_records_no_city
  (BIN_EDGE_TO_LABEL : list (Z * string))
  (get_lender_to_loan_amount_bins :
     list Loan.t -> list Z -> list string -> list Row.t)
  (df : list Loan.t) :
  _get_score_records BIN_EDGE_TO_LABEL get_lender_to_loan_amount_bins df []
  = Some [].
Proof.
  unfold _get_score_records, city_to_df.
  assert (Hl : listed_rows df [] = []).
  { unfold listed_rows. induction df as [|l t IH]; [reflexivity|exact IH]. }
  rewrite Hl. reflexivity.
Qed.

Lemma no_city_above_threshold (df : list Loan.t) :
  (forall c, Z.of_nat (List.length (city_group df c)) < 10) ->
  above_threshold_cities_of df = [].
Proof.
  intros Hsmall. unfold above_threshold_cities_of.
  destruct (snd (_get_above_threshold_df df)) as [|[c n] t] eqn:Habove;
    [reflexivity|].
  assert (Hin : In (c, n) (snd (_get_above_threshold_df df)))
    by (rewrite Habove; now left).
  apply above_threshold_In in Hin.
  specialize (Hsmall c). lia.
Qed.

(** ** The slider *)

Lemma max_int_fold (t : list Z) (x : Z) :
  let m := fold_left (fun m y => if m <? y then y else m) t x in
  In m (x :: t) /\ forall y, In y (x :: t) -> y <= m.
Proof.
  revert x. induction t as [|z t IH]; intros x; cbn [fold_left].
  - split; [now left|]. intros y [<-|[]]. lia.
  - destruct (IH (if x <? z then z else x)) as [Hin Hmax].
    split.
    + destruct Hin as [Heq|Hin]; [|right; now right].
      rewrite <- Heq. destruct (x <? z); [right; now left|now left].
    + intros y Hy.
      assert (Hstep : x <= (if x <? z then z else x)
                      /\ z <= (if x <? z then z else x)).
      { destruct (x <? z) eqn:Hxz;
          [apply Z.ltb_lt in Hxz|apply Z.ltb_ge in Hxz]; lia. }
      pose proof (Hmax _ (or_introl eq_refl)) as Hm.
      destruct Hy as [<-|[<-|Hy]]; [lia|lia|].
      apply Hmax. now right.
Qed.

Lemma max_int_spec (l : list Z) :
  l <> [] ->
  exists m, max_int l = Ok m /\ In m l /\ forall y, In y l -> y <= m.
Proof.
  destruct l as [|x t]; [congruence|]. intros _.
  eexists. split; [reflexivity|]. apply max_int_fold.
Qed.

Lemma ceiling_tens (m : Z) :
  let top := Qceiling (inject_Z m / 10) * 10 in
  m <= top < m + 10 /\ top mod 10 = 0.
Proof.
  unfold Qceiling, Qfloor, Qdiv, Qmult, Qinv, Qopp, inject_Z. cbn.
  rewrite Z.mul_1_r. Z.div_mod_to_equations. lia.
Qed.

Lemma slider_of_spec (score_records : list Score.t) :
  score_records <> [] ->
  exists m,
    max_int (map Score.bin_num_loans score_records) = Ok m
    /\ In m (map Score.bin_num_loans score_records)
    /\ (forall r, In r score_records -> Score.bin_num_loans r <= m)
    /\ slider_of score_records
       = Ok (mk_slider 10 (Qceiling (inject_Z m / 10) * 10) 10
               (if Qceiling (inject_Z m / 10) * 10 <=? 20 then 1
                else if Qceiling (inject_Z m / 10) * 10 <=? 100 then 5
                else if Qceiling (inject_Z m / 10) * 10 <=? 500 then 10
                else 50)).
Proof.
  intros Hne.
  destruct (max_int_spec (map Score.bin_num_loans score_records))
    as (m & Hm & Hin & Hmax).
  { destruct score_records; [congruence|discriminate]. }
  exists m. split; [exact Hm|]. split; [exact Hin|]. split.
  - intros r Hr. apply Hmax. now apply in_map.
  - unfold slider_of. now rewrite Hm.
Qed.

(** X4: [_show_slider] raises [ValueError] on an empty list of score
    records.  On any other list the slider starts at 10, its default, and
    ends at the least multiple of 10 that is not below the largest
    bin_num_loans: every record lies at or below the upper end and the record
    of the largest bin_num_loans less than 10 below it; the step is
    positive. *)
Theorem slider_bounds (score_records : list Score.t) :
  (score_records = [] -> slider_of score_records = Raise ValueError)
  /\ (score_records <> [] ->
      exists args,
        slider_of score_records = Ok args
        /\ min_value args = 10 /\ default_value args = 10
        /\ max_value args mod 10 = 0
        /\ (forall r, In r score_records ->
                      Score.bin_num_loans r <= max_value args)
        /\ (exists r, In r score_records
                      /\ max_value args < Score.bin_num_loans r + 10)
        /\ 0 < step args).
Proof.
  split; [now intros ->|]. intros Hne.
  destruct (slider_of_spec score_records Hne) as (m & _ & Hin & Hmax & Hs).
  pose proof (ceiling_tens m) as [Hb Hmod]. cbv zeta in Hb, Hmod.
  eexists. split; [exact Hs|]. cbn [min_value default_value max_value step].
  repeat split; try exact Hmod.
  - intros r Hr. specialize (Hmax r Hr). lia.
  - apply in_map_iff in Hin. destruct Hin as (r & Hr & Hin).
    exists r. split; [assumption|]. lia.
  - repeat match goal with |- context [if ?c then _ else _] => destruct c end;
      lia.
Qed.

Lemma slider_bounds_witness :
  sample_records <> []
  /\ exists args,
      slider_of sample_records = Ok args
      /\ min_value args = 10 /\ default_value args = 10
      /\ max_value args mod 10 = 0
      /\ (forall r, In r sample_records ->
                    Score.bin_num_loans r <= max_value args)
      /\ (exists r, In r sample_records
                    /\ max_value args < Score.bin_num_loans r + 10)
      /\ 0 < step args.
Proof.
  assert (H : sample_records <> []) by discriminate.
  split; [exact H|].
  exact (proj2 (slider_bounds sample_records) H).
Defined.

(** X5: for score records that all have bin_num_loans of 10 or more, as the
    scorer's have, the slider's range is in order, min_value <= default_value
    <= max_value, and up to an upper end of 500 the step divides the range,
    so that the upper end can be reached in whole steps. *)
Theorem slider_range_in_steps (score_records : list Score.t) (args : slider) :
  Forall (fun r => 10 <= Score.bin_num_loans r) score_records ->
  slider_of score_records = Ok args ->
  min_value args <= default_value args <= max_value args
  /\ (max_value args <= 500 ->
      (max_value args - min_value args) mod step args = 0).
Proof.
  intros Hall Hs.
  assert (Hne : score_records <> []) by (intros ->; discriminate Hs).
  destruct (slider_of_spec score_records Hne) as (m & _ & Hin & _ & Hs').
  rewrite Hs in Hs'. injection Hs' as ->.
  cbn [min_value default_value max_value step].
  pose proof (ceiling_tens m) as [Hb Hmod]. cbv zeta in Hb, Hmod.
  apply in_map_iff in Hin. destruct Hin as (r & Hr & Hin).
  rewrite Forall_forall in Hall. specialize (Hall r Hin).
  set (top := Qceiling (inject_Z m / 10) * 10) in *. clearbody top.
  split; [lia|]. intros Htop.
  destruct (top <=? 20) eqn:H20; [apply Z.mod_1_r|].
  destruct (top <=? 100) eqn:H100;
    [|destruct (top <=? 500) eqn:H500; [|apply Z.leb_gt in H500; lia]];
    revert Hmod; Z.div_mod_to_equations; lia.
Qed.

Lemma slider_range_in_steps_witness :
  Forall (fun r => 10 <= Score.bin_num_loans r) sample_records
  /\ slider_of sample_records = Ok (mk_slider 10 20 10 1)
  /\ 10 <= 10 <= 20
  /\ (20 <= 500 -> (20 - 10) mod 1 = 0).
Proof.
  assert (Hall : Forall (fun r => 10 <= Score.bin_num_loans r) sample_records)
    by (repeat constructor; cbn; lia).
  assert (Hs : slider_of sample_records = Ok (mk_slider 10 20 10 1))
    by (vm_compute; reflexivity).
  split; [exact Hall|]. split; [exact Hs|].
  exact (slider_range_in_steps sample_records _ Hall Hs).
Defined.

(** ** The selector: what a selection holds *)

Lemma selected_cases (l : list Score.t) (T : Z) (category : string) :
  (category = HIGH_HHI_SEGMENT
   /\ _get_selected_score_records l T category
      = firstn 10 (sorted_reverse Score.hhi F.ltb (filtered_records l T)))
  \/ (category = LOW_HHI_SEGMENT
      /\ _get_selected_score_records l T category
         = firstn 10 (sorted Score.hhi F.ltb (filtered_records l T)))
  \/ (category <> HIGH_HHI_SEGMENT /\ category <> LOW_HHI_SEGMENT
      /\ _get_selected_score_records l T category
         = sorted order_key Z.ltb (filtered_records l T)).
Proof.
  destruct (String.eqb category HIGH_HHI_SEGMENT) eqn:Hh;
    [|destruct (String.eqb category LOW_HHI_SEGMENT) eqn:Hl].
  - apply String.eqb_eq in Hh. subst. left. split; reflexivity.
  - apply String.eqb_eq in Hl. subst. right. left. split; reflexivity.
  - apply String.eqb_neq in Hh, Hl. right. right.
    repeat split; [assumption|assumption|now apply selected_other].
Qed.

Lemma selected_length (l : list Score.t) (T : Z) (category : string) :
  List.length (_get_selected_score_records l T category)
  = if String.eqb category HIGH_HHI_SEGMENT
       || String.eqb category LOW_HHI_SEGMENT
    then Nat.min 10 (List.length (filtered_records l T))
    else List.length (filtered_records l T).
Proof.
  destruct (selected_cases l T category)
    as [[-> Hsel]|[[-> Hsel]|(Hh & Hl & Hsel)]]; rewrite Hsel.
  - cbn [orb String.eqb]. rewrite length_firstn.
    now rewrite <- (Permutation_length (sorted_reverse_perm _ _ _)).
  - replace (String.eqb LOW_HHI_SEGMENT HIGH_HHI_SEGMENT
             || String.eqb LOW_HHI_SEGMENT LOW_HHI_SEGMENT) with true
      by reflexivity.
    rewrite length_firstn.
    now rewrite <- (Permutation_length (sorted_perm _ _ _)).
  - apply String.eqb_neq in Hh, Hl. rewrite Hh, Hl. cbn [orb].
    now rewrite <- (Permutation_length (sorted_perm _ _ _)).
Qed.

(** X6: a selection is a part of the threshold-filtered records.  The
    selected records, together with the records cut off, are the filtered
    records, each as often as it occurs there; so every selected record is a
    record of the input with bin_num_loans at or above the threshold.  The
    top-10 categories select min(10, number of filtered records) records, any
    other category selects all of them. *)
Theorem selection_part_of_filtered (l : list Score.t) (T : Z)
  (category : string) :
  let selected := _get_selected_score_records l T category in
  (exists cut_off,
      Permutation (filtered_records l T) (selected ++ cut_off)
      /\ (category <> HIGH_HHI_SEGMENT -> category <> LOW_HHI_SEGMENT ->
          cut_off = []))
  /\ (forall r, In r selected -> In r l /\ T <= Score.bin_num_loans r)
  /\ List.length selected
     = if String.eqb category HIGH_HHI_SEGMENT
          || String.eqb category LOW_HHI_SEGMENT
       then Nat.min 10 (List.length (filtered_records l T))
       else List.length (filtered_records l T).
Proof.
  intros selected. split; [|split].
  - destruct (selected_cases l T category)
      as [[-> Hsel]|[[-> Hsel]|(Hh & Hl & Hsel)]]; unfold selected;
      rewrite Hsel.
    + exists (skipn 10 (sorted_reverse Score.hhi F.ltb (filtered_records l T))).
      rewrite firstn_skipn. split; [apply sorted_reverse_perm|congruence].
    + exists (skipn 10 (sorted Score.hhi F.ltb (filtered_records l T))).
      rewrite firstn_skipn. split; [apply sorted_perm|congruence].
    + exists []. rewrite app_nil_r. split; [apply sorted_perm|reflexivity].
  - intros r Hr. apply selected_In_filtered in Hr.
    now apply filtered_records_In.
  - apply selected_length.
Qed.

Lemma selection_part_of_filtered_witness :
  List.length (_get_selected_score_records eleven_segments 10
                                           LOW_HHI_SEGMENT) = 10%nat
  /\ List.length (_get_selected_score_records eleven_segments 10
                                              ALL_SEGMENT) = 11%nat.
Proof.
  split.
  - rewrite (proj2 (proj2 (selection_part_of_filtered eleven_segments 10
                             LOW_HHI_SEGMENT))). reflexivity.
  - rewrite (proj2 (proj2 (selection_part_of_filtered eleven_segments 10
                             ALL_SEGMENT))). reflexivity.
Defined.

Lemma hhi_increasing (l : list Score.t) :
  Forall (fun r => Score.hhi r <> F.FNaN) l ->
  StronglySorted (increasing Score.hhi F.ltb) (sorted Score.hhi F.ltb l).
Proof.
  apply (sorted_increasing Score.hhi F.ltb (fun x => x <> F.FNaN)
                           ltb_asym ltb_negtrans).
Qed.

Lemma hhi_decreasing (l : list Score.t) :
  Forall (fun r => Score.hhi r <> F.FNaN) l ->
  StronglySorted (decreasing Score.hhi F.ltb)
                 (sorted_reverse Score.hhi F.ltb l).
Proof.
  apply (sorted_reverse_decreasing Score.hhi F.ltb (fun x => x <> F.FNaN)
                                   ltb_asym ltb_negtrans).
Qed.

Lemma filtered_records_number (l : list Score.t) (T : Z) :
  Forall (fun r => Score.hhi r <> F.FNaN) l ->
  Forall (fun r => Score.hhi r <> F.FNaN) (filtered_records l T).
Proof.
  intros Hl. rewrite Forall_forall in Hl |- *. intros r Hr.
  apply Hl. now apply filtered_records_In in Hr.
Qed.

Lemma ltb_irrefl (x : F.fval) : F.ltb x x = false.
Proof.
  destruct (F.ltb x x) eqn:Hx; [|reflexivity].
  pose proof (ltb_asym x x Hx). congruence.
Qed.

Lemma StronglySorted_head {A : Type} (R : A -> A -> Prop) (n : nat)
  (s : list A) (r : A) (rest : list A) :
  (forall a, R a a) -> StronglySorted R s -> firstn n s = r :: rest ->
  forall x, In x s -> R r x.
Proof.
  intros Hrefl Hs Hfirst x Hx.
  destruct s as [|a s']; [now rewrite firstn_nil in Hfirst|].
  destruct n as [|n]; [discriminate Hfirst|].
  cbn [firstn] in Hfirst. injection Hfirst as -> _.
  apply StronglySorted_inv in Hs. destruct Hs as [_ Hall].
  destruct Hx as [<-|Hx]; [apply Hrefl|].
  rewrite Forall_forall in Hall. now apply Hall.
Qed.

(** X7: when the hhi values are numbers, the first record of a
    MostConcentrated selection has the greatest hhi of all the records at or
    above the threshold, and the first record of a MostFragmented selection
    the smallest. *)
Theorem top10_head_extreme (l : list Score.t) (T : Z) (r : Score.t)
  (rest : list Score.t) :
  Forall (fun r => Score.hhi r <> F.FNaN) l ->
  (_get_selected_score_records l T HIGH_HHI_SEGMENT = r :: rest ->
   forall x, In x l -> T <= Score.bin_num_loans x ->
             F.le (Score.hhi x) (Score.hhi r))
  /\ (_get_selected_score_records l T LOW_HHI_SEGMENT = r :: rest ->
      forall x, In x l -> T <= Score.bin_num_loans x ->
                F.le (Score.hhi r) (Score.hhi x)).
Proof.
  intros Hnum. apply (filtered_records_number l T) in Hnum. split.
  - rewrite selected_high. intros Hsel x Hx HT.
    apply (StronglySorted_head (decreasing Score.hhi F.ltb) 10 _ r rest
             (fun a => ltb_irrefl (Score.hhi a)) (hhi_decreasing _ Hnum) Hsel).
    apply (Permutation_in _ (sorted_reverse_perm _ _ _)).
    now apply filtered_records_In.
  - rewrite selected_low. intros Hsel x Hx HT.
    apply (StronglySorted_head (increasing Score.hhi F.ltb) 10 _ r rest
             (fun a => ltb_irrefl (Score.hhi a)) (hhi_increasing _ Hnum) Hsel).
    apply (Permutation_in _ (sorted_perm _ _ _)).
    now apply filtered_records_In.
Qed.

Lemma top10_head_extreme_witness :
  Forall (fun r => Score.hhi r <> F.FNaN) eleven_segments
  /\ _get_selected_score_records eleven_segments 10 LOW_HHI_SEGMENT
     = large_segment
         :: map small_segment
              ["ACTON"; "BEDFORD"; "CANTON"; "DOVER"; "EASTON";
               "FRANKLIN"; "GRAFTON"; "HOLDEN"; "IPSWICH"]
  /\ F.le (Score.hhi large_segment) (Score.hhi (small_segment "LYNN")).
Proof.
  assert (Hnum : Forall (fun r => Score.hhi r <> F.FNaN) eleven_segments)
    by (repeat constructor; discriminate).
  assert (Hsel : _get_selected_score_records eleven_segments 10
                                             LOW_HHI_SEGMENT
                 = large_segment
                     :: map small_segment
                          ["ACTON"; "BEDFORD"; "CANTON"; "DOVER"; "EASTON";
                           "FRANKLIN"; "GRAFTON"; "HOLDEN"; "IPSWICH"])
    by (vm_compute; reflexivity).
  split; [exact Hnum|]. split; [exact Hsel|].
  apply (proj2 (top10_head_extreme eleven_segments 10 _ _ Hnum) Hsel).
  - unfold eleven_segments. apply in_or_app. left.
    apply in_map. cbn. tauto.
  - cbn. lia.
Defined.

Lemma sorted_fixed {A K : Type} (key : A -> K) (lt : K -> K -> bool)
  (l : list A) :
  StronglySorted (increasing key lt) l -> sorted key lt l = l.
Proof.
  induction 1 as [|x t Hs IH Hx]; [reflexivity|].
  cbn [sorted fold_right]. fold (sorted key lt t). rewrite IH.
  destruct t as [|y t']; [reflexivity|]. cbn [insert_sorted].
  inversion Hx as [|? ? Hy _]; subst. unfold increasing in Hy.
  now rewrite Hy.
Qed.

Lemma sorted_reverse_fixed {A K : Type} (key : A -> K) (lt : K -> K -> bool)
  (l : list A) :
  StronglySorted (decreasing key lt) l -> sorted_reverse key lt l = l.
Proof.
  intros Hs. unfold sorted_reverse.
  rewrite sorted_fixed; [apply rev_involutive|].
  apply (StronglySorted_rev (decreasing key lt)) in Hs. exact Hs.
Qed.

Lemma StronglySorted_firstn {A : Type} (R : A -> A -> Prop) (n : nat)
  (l : list A) :
  StronglySorted R l -> StronglySorted R (firstn n l).
Proof.
  intros Hs. revert n. induction Hs as [|x t Hs IH Hx]; intros n.
  - rewrite firstn_nil. constructor.
  - destruct n as [|n]; [constructor|]. cbn [firstn].
    constructor; [apply IH|].
    rewrite Forall_forall in Hx |- *. intros y Hy.
    apply Hx. now apply firstn_In in Hy.
Qed.

Lemma filtered_records_fixed (l : list Score.t) (T : Z) :
  (forall r, In r l -> T <= Score.bin_num_loans r) ->
  filtered_records l T = l.
Proof.
  intros Hall. unfold filtered_records.
  rewrite (filter_all _ true); [reflexivity|].
  intros r Hr. apply Z.leb_le. now apply Hall.
Qed.

Lemma order_key_increasing (l : list Score.t) :
  StronglySorted (increasing order_key Z.ltb) (sorted order_key Z.ltb l).
Proof.
  apply (sorted_increasing order_key Z.ltb (fun _ => True)).
  - intros a b. rewrite Z.ltb_lt, Z.ltb_ge. lia.
  - intros a b c _ _ _. rewrite !Z.ltb_ge. lia.
  - apply Forall_forall. trivial.
Qed.

(** X8: selecting is idempotent.  When the hhi values are numbers, selecting
    again from a selection, with the same threshold and category, returns the
    selection unchanged: it is already filtered, sorted and cut. *)
Theorem selection_idempotent (l : list Score.t) (T : Z) (category : string) :
  Forall (fun r => Score.hhi r <> F.FNaN) l ->
  _get_selected_score_records
    (_get_selected_score_records l T category) T category
  = _get_selected_score_records l T category.
Proof.
  intros Hnum. apply (filtered_records_number l T) in Hnum.
  assert (Hfix : filtered_records (_get_selected_score_records l T category) T
                 = _get_selected_score_records l T category).
  { apply filtered_records_fixed. intros r Hr.
    apply selected_In_filtered in Hr. now apply filtered_records_In in Hr. }
  destruct (selected_cases l T category)
    as [[-> Hsel]|[[-> Hsel]|(Hh & Hl & Hsel)]].
  - rewrite selected_high at 1. rewrite Hfix, Hsel.
    rewrite sorted_reverse_fixed.
    + rewrite firstn_firstn. reflexivity.
    + apply StronglySorted_firstn. now apply hhi_decreasing.
  - rewrite selected_low at 1. rewrite Hfix, Hsel.
    rewrite sorted_fixed.
    + rewrite firstn_firstn. reflexivity.
    + apply StronglySorted_firstn. now apply hhi_increasing.
  - rewrite (selected_other _ T category Hh Hl), Hfix, Hsel.
    apply sorted_fixed, order_key_increasing.
Qed.

Lemma selection_idempotent_witness :
  Forall (fun r => Score.hhi r <> F.FNaN) tied_segments
  /\ _get_selected_score_records
       (_get_selected_score_records tied_segments 11 HIGH_HHI_SEGMENT)
       11 HIGH_HHI_SEGMENT
     = _get_selected_score_records tied_segments 11 HIGH_HHI_SEGMENT.
Proof.
  assert (Hnum : Forall (fun r => Score.hhi r <> F.FNaN) tied_segments)
    by (repeat constructor; discriminate).
  split; [exact Hnum|].
  exact (selection_idempotent tied_segments 11 HIGH_HHI_SEGMENT Hnum).
Defined.

(** ** The slider and the selector *)

Lemma selected_nil_iff (l : list Score.t) (T : Z) (category : string) :
  _get_selected_score_records l T category = []
  <-> filtered_records l T = [].
Proof.
  pose proof (selected_length l T category) as Hlen.
  split; intros Hnil.
  - rewrite Hnil in Hlen. cbn [List.length] in Hlen.
    destruct (filtered_records l T); [reflexivity|].
    destruct (_ || _); cbn in Hlen; discriminate Hlen.
  - rewrite Hnil in Hlen. cbn [List.length] in Hlen.
    destruct (_get_selected_score_records l T category); [reflexivity|].
    destruct (_ || _); cbn in Hlen; discriminate Hlen.
Qed.

(** X9: with the slider left at its default value, the selection is never
    empty: for a non-empty list of score records that all have bin_num_loans
    of 10 or more, as the scorer's have, every category selects at least one
    record at the threshold default_value. *)
Theorem default_threshold_selects (score_records : list Score.t)
  (args : slider) (category : string) :
  Forall (fun r => 10 <= Score.bin_num_loans r) score_records ->
  slider_of score_records = Ok args ->
  _get_selected_score_records score_records (default_value args) category
  <> [].
Proof.
  intros Hall Hs.
  assert (Hne : score_records <> []) by (intros ->; discriminate Hs).
  destruct (slider_of_spec score_records Hne) as (m & _ & _ & _ & Hs').
  rewrite Hs in Hs'. injection Hs' as ->. cbn [default_value].
  rewrite selected_nil_iff, filtered_records_fixed; [exact Hne|].
  rewrite Forall_forall in Hall. exact Hall.
Qed.

Lemma default_threshold_selects_witness :
  Forall (fun r => 10 <= Score.bin_num_loans r) sample_records
  /\ slider_of sample_records = Ok (mk_slider 10 20 10 1)
  /\ _get_selected_score_records sample_records 10 ALL_SEGMENT <> [].
Proof.
  assert (Hall : Forall (fun r => 10 <= Score.bin_num_loans r) sample_records)
    by (repeat constructor; cbn; lia).
  assert (Hs : slider_of sample_records = Ok (mk_slider 10 20 10 1))
    by (vm_compute; reflexivity).
  split; [exact Hall|]. split; [exact Hs|].
  exact (default_threshold_selects sample_records _ ALL_SEGMENT Hall Hs).
Defined.

(** X10: with the slider at its upper end, the selection is empty exactly
    when the largest bin_num_loans is no multiple of 10: the upper end is that
    number rounded up to a multiple of 10, and no record reaches it unless the
    largest one equals it. *)
Theorem selection_at_slider_top (score_records : list Score.t)
  (args : slider) (m : Z) (category : string) :
  slider_of score_records = Ok args ->
  max_int (map Score.bin_num_loans score_records) = Ok m ->
  _get_selected_score_records score_records (max_value args) category = []
  <-> m mod 10 <> 0.
Proof.
  intros Hs Hm.
  assert (Hne : score_records <> []) by (intros ->; discriminate Hs).
  destruct (slider_of_spec score_records Hne) as (m' & Hm' & Hin & Hmax & Hs').
  rewrite Hm in Hm'. injection Hm' as <-.
  rewrite Hs in Hs'. injection Hs' as ->. cbn [max_value].
  pose proof (ceiling_tens m) as [Hb Hmod]. cbv zeta in Hb, Hmod.
  set (top := Qceiling (inject_Z m / 10) * 10) in *. clearbody top.
  rewrite selected_nil_iff. split.
  - intros Hnil Hm10.
    assert (Htop : top = m)
      by (revert Hmod Hm10; Z.div_mod_to_equations; lia).
    apply in_map_iff in Hin. destruct Hin as (r & Hr & Hin).
    assert (Hf : In r (filtered_records score_records top))
      by (apply filtered_records_In; split; [assumption|lia]).
    now rewrite Hnil in Hf.
  - intros Hm10.
    assert (Htop : m < top)
      by (revert Hmod Hm10; Z.div_mod_to_equations; lia).
    destruct (filtered_records score_records top) as [|r t] eqn:Hf;
      [reflexivity|].
    assert (Hr : In r (filtered_records score_records top))
      by (rewrite Hf; now left).
    apply filtered_records_In in Hr. destruct Hr as [Hr Hle].
    specialize (Hmax r Hr). lia.
Qed.

Lemma selection_at_slider_top_witness :
  slider_of sample_records = Ok (mk_slider 10 20 10 1)
  /\ max_int (map Score.bin_num_loans sample_records) = Ok 12
  /\ 12 mod 10 <> 0
  /\ _get_selected_score_records sample_records 20 HIGH_HHI_SEGMENT = [].
Proof.
  assert (Hs : slider_of sample_records = Ok (mk_slider 10 20 10 1))
    by (vm_compute; reflexivity).
  assert (Hm : max_int (map Score.bin_num_loans sample_records) = Ok 12)
    by (vm_compute; reflexivity).
  assert (H12 : 12 mod 10 <> 0) by (vm_compute; discriminate).
  split; [exact Hs|]. split; [exact Hm|]. split; [exact H12|].
  exact (proj2 (selection_at_slider_top sample_records _ 12 HIGH_HHI_SEGMENT
                  Hs Hm) H12).
Defined.

(** ** The metrics *)

Lemma eqb_number_refl (x : F.fval) : x <> F.FNaN -> F.eqb x x = true.
Proof.
  destruct x as [q|[]|]; intros Hx; try reflexivity; [|congruence].
  cbn. apply Qeq_bool_iff. reflexivity.
Qed.

Lemma le_number_trans (a b c : F.fval) :
  a <> F.FNaN -> b <> F.FNaN -> c <> F.FNaN ->
  F.le a b -> F.le b c -> F.le a c.
Proof. unfold F.le. apply ltb_negtrans. Qed.

Lemma max_float_fold (t : list F.fval) (x : F.fval) :
  Forall (fun y => y <> F.FNaN) (x :: t) ->
  let m := fold_left (fun m y => if F.ltb m y then y else m) t x in
  In m (x :: t) /\ forall y, In y (x :: t) -> F.le y m.
Proof.
  revert x. induction t as [|z t IH]; intros x Hnum; cbn [fold_left].
  - split; [now left|]. intros y [<-|[]]. apply ltb_irrefl.
  - inversion Hnum as [|? ? Hx Hzt]; subst.
    inversion Hzt as [|? ? Hz Ht]; subst.
    set (x' := if F.ltb x z then z else x).
    assert (Hx' : x' <> F.FNaN) by (unfold x'; now destruct (F.ltb x z)).
    assert (Hstep : F.le x x' /\ F.le z x').
    { unfold x', F.le. destruct (F.ltb x z) eqn:Hxz.
      - split; [now apply ltb_asym|apply ltb_irrefl].
      - split; [apply ltb_irrefl|exact Hxz]. }
    destruct (IH x' (Forall_cons x' Hx' Ht)) as [Hin Hmax].
    pose proof (Hmax _ (or_introl eq_refl)) as Hm.
    assert (Hmnum : fold_left (fun m y => if F.ltb m y then y else m) t x'
                    <> F.FNaN).
    { destruct Hin as [<-|Hin]; [exact Hx'|].
      rewrite Forall_forall in Ht. now apply Ht. }
    split.
    + destruct Hin as [Heq|Hin]; [|right; now right].
      rewrite <- Heq. unfold x'.
      destruct (F.ltb x z); [right; now left|now left].
    + intros y [<-|[<-|Hy]].
      * apply (le_number_trans _ x'); tauto.
      * apply (le_number_trans _ x'); tauto.
      * apply Hmax. now right.
Qed.

Lemma min_float_fold (t : list F.fval) (x : F.fval) :
  Forall (fun y => y <> F.FNaN) (x :: t) ->
  let m := fold_left (fun m y => if F.ltb y m then y else m) t x in
  In m (x :: t) /\ forall y, In y (x :: t) -> F.le m y.
Proof.
  revert x. induction t as [|z t IH]; intros x Hnum; cbn [fold_left].
  - split; [now left|]. intros y [<-|[]]. apply ltb_irrefl.
  - inversion Hnum as [|? ? Hx Hzt]; subst.
    inversion Hzt as [|? ? Hz Ht]; subst.
    set (x' := if F.ltb z x then z else x).
    assert (Hx' : x' <> F.FNaN) by (unfold x'; now destruct (F.ltb z x)).
    assert (Hstep : F.le x' x /\ F.le x' z).
    { unfold x', F.le. destruct (F.ltb z x) eqn:Hzx.
      - split; [now apply ltb_asym|apply ltb_irrefl].
      - split; [apply ltb_irrefl|exact Hzx]. }
    destruct (IH x' (Forall_cons x' Hx' Ht)) as [Hin Hmin].
    pose proof (Hmin _ (or_introl eq_refl)) as Hm.
    assert (Hmnum : fold_left (fun m y => if F.ltb y m then y else m) t x'
                    <> F.FNaN).
    { destruct Hin as [<-|Hin]; [exact Hx'|].
      rewrite Forall_forall in Ht. now apply Ht. }
    split.
    + destruct Hin as [Heq|Hin]; [|right; now right].
      rewrite <- Heq. unfold x'.
      destruct (F.ltb z x); [right; now left|now left].
    + intros y [<-|[<-|Hy]].
      * apply (le_number_trans _ x'); tauto.
      * apply (le_number_trans _ x'); tauto.
      * apply Hmin. now right.
Qed.

Lemma next_with_hhi_found (v : F.fval) (records : list Score.t) :
  v <> F.FNaN -> In v (map Score.hhi records) ->
  exists r, next_with_hhi v records = Ok r
            /\ In r records /\ F.eqb (Score.hhi r) v = true.
Proof.
  intros Hv Hin. unfold next_with_hhi.
  destruct (find (fun record => F.eqb (Score.hhi record) v) records)
    as [r|] eqn:Hfind.
  - apply find_some in Hfind. now exists r.
  - apply in_map_iff in Hin. destruct Hin as (r & Hr & Hin).
    pose proof (find_none _ _ Hfind r Hin) as Hf. cbn beta in Hf.
    rewrite Hr, (eqb_number_refl v Hv) in Hf. discriminate Hf.
Qed.

Lemma show_metrics_spec (LABEL_SEPARATOR : string) (r : Score.t)
  (t : list Score.t) :
  Forall (fun x => Score.hhi x <> F.FNaN) (r :: t) ->
  let vmax := fold_left (fun m y => if F.ltb m y then y else m)
                        (map Score.hhi t) (Score.hhi r) in
  let vmin := fold_left (fun m y => if F.ltb y m then y else m)
                        (map Score.hhi t) (Score.hhi r) in
  exists rmax rmin,
    next_with_hhi vmax (r :: t) = Ok rmax
    /\ next_with_hhi vmin (r :: t) = Ok rmin
    /\ _show_metrics_selected_data LABEL_SEPARATOR (r :: t)
       = Ok (Metric ("**Highest HHI**```"
                       ++ metric_label LABEL_SEPARATOR rmax ++ "```") vmax,
             Metric ("**Lowest HHI**```"
                       ++ metric_label LABEL_SEPARATOR rmin ++ "```") vmin)
    /\ In rmax (r :: t) /\ In rmin (r :: t)
    /\ F.eqb (Score.hhi rmax) vmax = true
    /\ F.eqb (Score.hhi rmin) vmin = true
    /\ forall x, In x (r :: t) ->
                 F.le (Score.hhi x) vmax /\ F.le vmin (Score.hhi x).
Proof.
  intros Hnum vmax vmin.
  assert (Hnum' : Forall (fun y => y <> F.FNaN) (map Score.hhi (r :: t))).
  { rewrite Forall_forall in Hnum |- *. intros y Hy.
    apply in_map_iff in Hy. destruct Hy as (x & <- & Hx). now apply Hnum. }
  cbn [map] in Hnum'.
  destruct (max_float_fold _ _ Hnum') as [Hmaxin Hmax].
  destruct (min_float_fold _ _ Hnum') as [Hminin Hmin].
  fold vmax in Hmaxin, Hmax. fold vmin in Hminin, Hmin.
  rewrite Forall_forall in Hnum'.
  destruct (next_with_hhi_found vmax (r :: t) (Hnum' _ Hmaxin) Hmaxin)
    as (rmax & Hfmax & Hrmax & Hemax).
  destruct (next_with_hhi_found vmin (r :: t) (Hnum' _ Hminin) Hminin)
    as (rmin & Hfmin & Hrmin & Hemin).
  exists rmax, rmin. split; [exact Hfmax|]. split; [exact Hfmin|]. split.
  - unfold _show_metrics_selected_data, max_float, min_float. cbn [map].
    fold vmax. fold vmin. now rewrite Hfmax, Hfmin.
  - repeat split; try assumption.
    + apply Hmax. now apply (in_map Score.hhi) in H.
    + apply Hmin. now apply (in_map Score.hhi) in H.
Qed.

(** X11: [_show_metrics_selected_data] raises [ValueError] on an empty
    selection.  On a non-empty selection whose hhi values are numbers it shows
    two metrics: the first with the greatest hhi of the selection and the
    label of a selected record that has it, the second with the smallest hhi
    and the label of a selected record that has it. *)
Theorem metrics_show_extremes (LABEL_SEPARATOR : string)
  (selected : list Score.t) :
  (selected = [] ->
   _show_metrics_selected_data LABEL_SEPARATOR selected = Raise ValueError)
  /\ (selected <> [] ->
      Forall (fun x => Score.hhi x <> F.FNaN) selected ->
      exists rmax rmin vmax vmin,
        _show_metrics_selected_data LABEL_SEPARATOR selected
        = Ok (Metric ("**Highest HHI**```"
                        ++ metric_label LABEL_SEPARATOR rmax ++ "```") vmax,
              Metric ("**Lowest HHI**```"
                        ++ metric_label LABEL_SEPARATOR rmin ++ "```") vmin)
        /\ In rmax selected /\ In rmin selected
        /\ F.eqb (Score.hhi rmax) vmax = true
        /\ F.eqb (Score.hhi rmin) vmin = true
        /\ forall x, In x selected ->
                     F.le (Score.hhi x) vmax /\ F.le vmin (Score.hhi x)).
Proof.
  split; [now intros ->|]. intros Hne Hnum.
  destruct selected as [|r t]; [congruence|].
  destruct (show_metrics_spec LABEL_SEPARATOR r t Hnum)
    as (rmax & rmin & _ & _ & Hshow & Hrest).
  exists rmax, rmin. eexists. eexists. split; [exact Hshow|exact Hrest].
Qed.

Lemma metrics_show_extremes_witness :
  sample_records <> []
  /\ Forall (fun x => Score.hhi x <> F.FNaN) sample_records
  /\ _show_metrics_selected_data sample_separator sample_records
     = Ok (Metric "**Highest HHI**```  SALEM  |  $50K - $100K```"
                  (F.FNum (1440000 # 144)),
           Metric "**Lowest HHI**```  DOVER  |  $100K - $250K```"
                  (F.FNum (115200000 # 20736)))
  /\ exists rmax rmin vmax vmin,
      _show_metrics_selected_data sample_separator sample_records
      = Ok (Metric ("**Highest HHI**```"
                      ++ metric_label sample_separator rmax ++ "```") vmax,
            Metric ("**Lowest HHI**```"
                      ++ metric_label sample_separator rmin ++ "```") vmin)
      /\ In rmax sample_records /\ In rmin sample_records
      /\ F.eqb (Score.hhi rmax) vmax = true
      /\ F.eqb (Score.hhi rmin) vmin = true
      /\ forall x, In x sample_records ->
                   F.le (Score.hhi x) vmax /\ F.le vmin (Score.hhi x).
Proof.
  assert (Hne : sample_records <> []) by discriminate.
  assert (Hnum : Forall (fun x => Score.hhi x <> F.FNaN) sample_records)
    by (repeat constructor; discriminate).
  split; [exact Hne|]. split; [exact Hnum|].
  split; [vm_compute; reflexivity|].
  exact (proj2 (metrics_show_extremes sample_separator sample_records)
               Hne Hnum).
Defined.

Lemma max_fold_head (t : list F.fval) (v : F.fval) :
  (forall y, In y t -> F.ltb v y = false) ->
  fold_left (fun m y => if F.ltb m y then y else m) t v = v.
Proof.
  induction t as [|z t IH]; intros Hall; [reflexivity|].
  cbn [fold_left]. rewrite (Hall z (or_introl eq_refl)).
  apply IH. intros y Hy. apply Hall. now right.
Qed.

Lemma min_fold_head (t : list F.fval) (v : F.fval) :
  (forall y, In y t -> F.ltb y v = false) ->
  fold_left (fun m y => if F.ltb y m then y else m) t v = v.
Proof.
  induction t as [|z t IH]; intros Hall; [reflexivity|].
  cbn [fold_left]. rewrite (Hall z (or_introl eq_refl)).
  apply IH. intros y Hy. apply Hall. now right.
Qed.

Lemma next_with_hhi_head (r : Score.t) (t : list Score.t) :
  Score.hhi r <> F.FNaN -> next_with_hhi (Score.hhi r) (r :: t) = Ok r.
Proof.
  intros Hr. unfold next_with_hhi. cbn [find].
  now rewrite (eqb_number_refl _ Hr).
Qed.

Lemma selected_number (l : list Score.t) (T : Z) (category : string) :
  Forall (fun r => Score.hhi r <> F.FNaN) l ->
  Forall (fun r => Score.hhi r <> F.FNaN)
         (_get_selected_score_records l T category).
Proof.
  intros Hl. rewrite Forall_forall in Hl |- *. intros r Hr.
  apply selected_In_filtered, filtered_records_In in Hr. now apply Hl.
Qed.

(** X12: when the hhi values are numbers, the Highest HHI metric of a
    MostConcentrated selection shows its first record, label and hhi, and
    the Lowest HHI metric of a MostFragmented selection shows its first
    record. *)
Theorem metrics_show_first_selected (LABEL_SEPARATOR : string)
  (l : list Score.t) (T : Z) (r : Score.t) (rest : list Score.t) :
  Forall (fun x => Score.hhi x <> F.FNaN) l ->
  (_get_selected_score_records l T HIGH_HHI_SEGMENT = r :: rest ->
   exists lowest,
     _show_metrics_selected_data LABEL_SEPARATOR (r :: rest)
     = Ok (Metric ("**Highest HHI**```"
                     ++ metric_label LABEL_SEPARATOR r ++ "```")
                  (Score.hhi r),
           lowest))
  /\ (_get_selected_score_records l T LOW_HHI_SEGMENT = r :: rest ->
      exists highest,
        _show_metrics_selected_data LABEL_SEPARATOR (r :: rest)
        = Ok (highest,
              Metric ("**Lowest HHI**```"
                        ++ metric_label LABEL_SEPARATOR r ++ "```")
                     (Score.hhi r))).
Proof.
  intros Hnum. split; intros Hsel.
  - pose proof (selected_number l T HIGH_HHI_SEGMENT Hnum) as Hn.
    assert (Hs : StronglySorted (decreasing Score.hhi F.ltb) (r :: rest)).
    { rewrite <- Hsel, selected_high. apply StronglySorted_firstn.
      apply hhi_decreasing. now apply filtered_records_number. }
    rewrite Hsel in Hn.
    destruct (show_metrics_spec LABEL_SEPARATOR r rest Hn)
      as (rmax & rmin & Hfmax & _ & Hshow & _).
    cbv zeta in Hfmax, Hshow.
    assert (Hv : fold_left (fun m y => if F.ltb m y then y else m)
                           (map Score.hhi rest) (Score.hhi r)
                 = Score.hhi r).
    { apply max_fold_head. intros y Hy. apply in_map_iff in Hy.
      destruct Hy as (x & <- & Hx). apply StronglySorted_inv in Hs.
      destruct Hs as [_ Hall]. rewrite Forall_forall in Hall.
      now apply Hall. }
    rewrite Hv in Hfmax, Hshow.
    rewrite next_with_hhi_head in Hfmax by now inversion Hn.
    injection Hfmax as <-. eexists. exact Hshow.
  - pose proof (selected_number l T LOW_HHI_SEGMENT Hnum) as Hn.
    assert (Hs : StronglySorted (increasing Score.hhi F.ltb) (r :: rest)).
    { rewrite <- Hsel, selected_low. apply StronglySorted_firstn.
      apply hhi_increasing. now apply filtered_records_number. }
    rewrite Hsel in Hn.
    destruct (show_metrics_spec LABEL_SEPARATOR r rest Hn)
      as (rmax & rmin & _ & Hfmin & Hshow & _).
    cbv zeta in Hfmin, Hshow.
    assert (Hv : fold_left (fun m y => if F.ltb y m then y else m)
                           (map Score.hhi rest) (Score.hhi r)
                 = Score.hhi r).
    { apply min_fold_head. intros y Hy. apply in_map_iff in Hy.
      destruct Hy as (x & <- & Hx). apply StronglySorted_inv in Hs.
      destruct Hs as [_ Hall]. rewrite Forall_forall in Hall.
      now apply Hall. }
    rewrite Hv in Hfmin, Hshow.
    rewrite next_with_hhi_head in Hfmin by now inversion Hn.
    injection Hfmin as <-. eexists. exact Hshow.
Qed.

Lemma metrics_show_first_selected_witness :
  Forall (fun x => Score.hhi x <> F.FNaN) tied_segments
  /\ _get_selected_score_records tied_segments 11 HIGH_HHI_SEGMENT
     = [ Score.mk "DOVER" "$0 - $50K" 12 (F.Root F.FNaN) (F.FNum 10000);
         Score.mk "LYNN" "$5M - $10M" 15 (F.Root F.FNaN) (F.FNum 10000);
         Score.mk "SALEM" "other" 30 (F.Root (F.FNum 2)) (F.FNum 2500);
         Score.mk "SALEM" "$50K - $100K" 11 (F.Root (F.FNum 8))
           (F.FNum (5000 # 2)) ]
  /\ exists lowest,
      _show_metrics_selected_data sample_separator
        (_get_selected_score_records tied_segments 11 HIGH_HHI_SEGMENT)
      = Ok (Metric "**Highest HHI**```  DOVER  |  $0 - $50K```"
                   (F.FNum 10000),
            lowest).
Proof.
  assert (Hnum : Forall (fun x => Score.hhi x <> F.FNaN) tied_segments)
    by (repeat constructor; discriminate).
  assert (Hsel : _get_selected_score_records tied_segments 11
                                             HIGH_HHI_SEGMENT
                 = [ Score.mk "DOVER" "$0 - $50K" 12 (F.Root F.FNaN)
                       (F.FNum 10000);
                     Score.mk "LYNN" "$5M - $10M" 15 (F.Root F.FNaN)
                       (F.FNum 10000);
                     Score.mk "SALEM" "other" 30 (F.Root (F.FNum 2))
                       (F.FNum 2500);
                     Score.mk "SALEM" "$50K - $100K" 11 (F.Root (F.FNum 8))
                       (F.FNum (5000 # 2)) ])
    by (vm_compute; reflexivity).
  split; [exact Hnum|]. split; [exact Hsel|].
  rewrite Hsel.
  exact (proj1 (metrics_show_first_selected sample_separator tied_segments 11
                  _ _ Hnum) Hsel).
Defined.

(** ** The stacked bar chart *)

Lemma existsb_eqb_In (x : string) (l : list string) :
  existsb (String.eqb x) l = true <-> In x l.
Proof.
  rewrite existsb_exists. split.
  - intros (y & Hy & Heq). apply String.eqb_eq in Heq. now subst y.
  - intros Hin. exists x. split; [assumption|apply String.eqb_refl].
Qed.

Lemma unique_from_In (seen l : list string) (x : string) :
  In x (unique_from seen l) <-> In x l /\ ~ In x seen.
Proof.
  revert seen. induction l as [|y t IH]; intros seen; cbn [unique_from].
  - cbn. tauto.
  - destruct (existsb (String.eqb y) seen) eqn:Hy.
    + apply existsb_eqb_In in Hy. rewrite IH. cbn [In]. split.
      * tauto.
      * intros [[<-|Hin] Hns]; [contradiction|tauto].
    + assert (Hny : ~ In y seen).
      { intros Hin. apply existsb_eqb_In in Hin. congruence. }
      cbn [In]. rewrite IH. cbn [In]. split.
      * intros [<-|[Hin Hns]]; [tauto|]. split; [tauto|]. intuition.
      * intros [[<-|Hin] Hns]; [tauto|].
        destruct (string_dec y x) as [->|Hne]; [tauto|]. right.
        split; [assumption|]. intros [Heq|Hs]; [congruence|contradiction].
Qed.

Lemma unique_from_NoDup (seen l : list string) : NoDup (unique_from seen l).
Proof.
  revert seen. induction l as [|y t IH]; intros seen; cbn [unique_from].
  - constructor.
  - destruct (existsb (String.eqb y) seen); [apply IH|].
    constructor; [|apply IH].
    rewrite unique_from_In. intros [_ Hns]. apply Hns. now left.
Qed.

Section StackedBar.
Variable LABEL_SEPARATOR : string.
Variable get_edge_range : string -> result (Z * Z).
Variable get_lender_to_loan_amount_bins :
  list Loan.t -> list Z -> list string -> list Row.t.
Variable df : list Loan.t.

Lemma amount_bin_level_dfs_spec (score_records : list Score.t) :
  (forall record, In record score_records ->
                  exists edges,
                    get_edge_range (Score.loan_amount_bin record) = Ok edges) ->
  exists frames,
    amount_bin_level_dfs LABEL_SEPARATOR get_edge_range
      get_lender_to_loan_amount_bins df score_records = Ok frames
    /\ List.length frames = List.length score_records
    /\ forall row,
        In row (List.concat frames)
        <-> exists record frame,
            In record score_records
            /\ bin_level_df LABEL_SEPARATOR get_edge_range
                 get_lender_to_loan_amount_bins df record = Ok frame
            /\ In row frame.
Proof.
  induction score_records as [|record rest IH]; intros Hedges.
  - exists []. split; [reflexivity|]. split; [reflexivity|].
    intros row. cbn. split; [easy|]. intros (r & fr & [] & _).
  - destruct (Hedges record (or_introl eq_refl)) as (edges & Hedge).
    destruct IH as (frames & Hframes & Hlen & Hrows).
    { intros r Hr. apply Hedges. now right. }
    cbn [amount_bin_level_dfs]. unfold bin_level_df at 1.
    rewrite Hedge, Hframes. eexists. split; [reflexivity|].
    split; [cbn [List.length]; now rewrite Hlen|].
    intros row. cbn [List.concat]. rewrite in_app_iff, Hrows. split.
    + intros [Hin|(r & fr & Hr & Hframe & Hin)].
      * exists record. eexists. split; [now left|].
        unfold bin_level_df. rewrite Hedge. split; [reflexivity|exact Hin].
      * exists r, fr. split; [now right|]. now split.
    + intros (r & frame & [<-|Hr] & Hframe & Hin).
      * left. unfold bin_level_df in Hframe. rewrite Hedge in Hframe.
        injection Hframe as <-. exact Hin.
      * right. now exists r, frame.
Qed.

(** The label [_get_stacked_bar_data] joins for a record. *)
Lemma chart_rows_labelled (score_records : list Score.t) :
  score_records <> [] ->
  (forall record, In record score_records ->
                  exists edges,
                    get_edge_range (Score.loan_amount_bin record)
                    = Ok edges) ->
  (forall d e labels row,
      In row (get_lender_to_loan_amount_bins d e labels) ->
      In (Row.loan_amount_bin row) labels) ->
  exists chart,
    _get_stacked_bar_data LABEL_SEPARATOR get_edge_range
      get_lender_to_loan_amount_bins df score_records = Ok chart
    /\ forall row,
        In row chart ->
        exists record,
          In record score_records
          /\ Row.loan_amount_bin row
             = (Score.city record ++ LABEL_SEPARATOR
                  ++ Score.loan_amount_bin record)%string.
Proof.
  intros Hne Hedges Hlabels.
  destruct (amount_bin_level_dfs_spec score_records Hedges)
    as (frames & Hframes & Hlen & Hrows).
  unfold _get_stacked_bar_data. rewrite Hframes.
  destruct frames as [|frame frames].
  { destruct score_records; [congruence|discriminate Hlen]. }
  eexists. split; [reflexivity|]. intros row Hrow.
  apply Hrows in Hrow. destruct Hrow as (record & fr & Hrec & Hfr & Hin).
  exists record. split; [assumption|].
  unfold bin_level_df in Hfr.
  destruct (get_edge_range (Score.loan_amount_bin record)) as [edges|];
    [|discriminate Hfr].
  injection Hfr as <-. apply Hlabels in Hin.
  destruct Hin as [Heq|[]]. now symmetry.
Qed.

(** X13: [_get_stacked_bar_data] raises [ValueError] when it is given no
    score record.  Given some, and edges for each of their bins, it returns
    the rows of the aggregator's frames of the records; when the aggregator
    labels its rows with the labels it is given, every row of the chart
    carries the label city, separator, bin of one of the records. *)
Theorem stacked_bar_data_rows (score_records : list Score.t) :
  (score_records = [] ->
   _get_stacked_bar_data LABEL_SEPARATOR get_edge_range
     get_lender_to_loan_amount_bins df score_records = Raise ValueError)
  /\ (score_records <> [] ->
      (forall record, In record score_records ->
                      exists edges,
                        get_edge_range (Score.loan_amount_bin record)
                        = Ok edges) ->
      (forall d e labels row,
          In row (get_lender_to_loan_amount_bins d e labels) ->
          In (Row.loan_amount_bin row) labels) ->
      exists chart,
        _get_stacked_bar_data LABEL_SEPARATOR get_edge_range
          get_lender_to_loan_amount_bins df score_records = Ok chart
        /\ forall row,
            In row chart ->
            exists record,
              In record score_records
              /\ Row.loan_amount_bin row
                 = (Score.city record ++ LABEL_SEPARATOR
                      ++ Score.loan_amount_bin record)%string).
Proof.
  split; [now intros ->|]. apply chart_rows_labelled.
Qed.

(** X14: the chart drawn for a selection has one bar per label, each label
    once and each made of the city and bin of a selected record, so no more
    bars than selected records; its height is 70 per bar and 160 at least. *)
Theorem stacked_bar_of_selection (score_records : list Score.t)
  (chart : list Row.t) :
  (forall d e labels row,
      In row (get_lender_to_loan_amount_bins d e labels) ->
      In (Row.loan_amount_bin row) labels) ->
  (forall record, In record score_records ->
                  exists edges,
                    get_edge_range (Score.loan_amount_bin record)
                    = Ok edges) ->
  _get_stacked_bar_data LABEL_SEPARATOR get_edge_range
    get_lender_to_loan_amount_bins df score_records = Ok chart ->
  let bar := _show_stacked_bar chart in
  NoDup (sorted_bin_labels bar)
  /\ (forall label,
         In label (sorted_bin_labels bar) ->
         exists record,
           In record score_records
           /\ label = (Score.city record ++ LABEL_SEPARATOR
                         ++ Score.loan_amount_bin record)%string)
  /\ (List.length (sorted_bin_labels bar) <= List.length score_records)%nat
  /\ 160 <= height bar
  /\ height bar <= Z.max 160 (70 * Z.of_nat (List.length score_records)).
Proof.
  intros Hlabels Hedges Hchart bar.
  assert (Hne : score_records <> []) by (intros ->; discriminate Hchart).
  destruct (chart_rows_labelled score_records Hne Hedges Hlabels)
    as (chart' & Hchart' & Hrows).
  rewrite Hchart in Hchart'. injection Hchart' as <-.
  assert (Hnd : NoDup (sorted_bin_labels bar)) by apply unique_from_NoDup.
  assert (Hin : forall label,
             In label (sorted_bin_labels bar) ->
             In label (map (fun record =>
                              (Score.city record ++ LABEL_SEPARATOR
                                 ++ Score.loan_amount_bin record)%string)
                           score_records)).
  { intros label Hl. apply unique_from_In in Hl. destruct Hl as [Hl _].
    apply in_map_iff in Hl. destruct Hl as (row & <- & Hrow).
    destruct (Hrows row Hrow) as (record & Hrec & ->).
    apply in_map_iff. now exists record. }
  assert (Hlen : (List.length (sorted_bin_labels bar)
                  <= List.length score_records)%nat).
  { rewrite <- (length_map (fun record =>
                              (Score.city record ++ LABEL_SEPARATOR
                                 ++ Score.loan_amount_bin record)%string)
                           score_records).
    apply NoDup_incl_length; [exact Hnd|exact Hin]. }
  split; [exact Hnd|]. split.
  - intros label Hl. apply Hin, in_map_iff in Hl.
    destruct Hl as (record & <- & Hrec). now exists record.
  - split; [exact Hlen|]. unfold bar, _show_stacked_bar in *.
    cbn [height sorted_bin_labels] in *. lia.
Qed.

End StackedBar.

Lemma cut_In (amount : Q) (edges : list Z) (labels : list string)
  (label : string) :
  cut amount edges labels = Some label -> In label labels.
Proof.
  revert labels. induction edges as [|lower rest IH]; intros labels;
    [discriminate|].
  destruct rest as [|upper rest']; [destruct labels; discriminate|].
  destruct labels as [|l others]; [discriminate|].
  cbn [cut]. destruct (_ && _).
  - intros [= ->]. now left.
  - intros Hcut. right. now apply IH.
Qed.

Lemma count_loan_labels (labels : list string) (lender bin : string)
  (rows : list Row.t) :
  In bin labels ->
  Forall (fun r => In (Row.loan_amount_bin r) labels) rows ->
  Forall (fun r => In (Row.loan_amount_bin r) labels)
         (count_loan lender bin rows).
Proof.
  intros Hbin. induction 1 as [|r t Hr Ht IH]; cbn [count_loan].
  - now repeat constructor.
  - destruct (_ && _); constructor; assumption.
Qed.

Lemma lender_aggregator_labels (df : list Loan.t) (edges : list Z)
  (labels : list string) (row : Row.t) :
  In row (lender_aggregator df edges labels) ->
  In (Row.loan_amount_bin row) labels.
Proof.
  unfold lender_aggregator.
  assert (Hgen : forall acc,
             Forall (fun r => In (Row.loan_amount_bin r) labels) acc ->
             Forall (fun r => In (Row.loan_amount_bin r) labels)
                    (fold_left
                       (fun rows l =>
                          match loan_bin l edges labels with
                          | Some bin => count_loan (Loan.lender l) bin rows
                          | None => rows
                          end) df acc)).
  { induction df as [|l t IH]; intros acc Hacc; [exact Hacc|].
    cbn [fold_left]. apply IH.
    destruct (loan_bin l edges labels) as [bin|] eqn:Hbin; [|exact Hacc].
    apply count_loan_labels; [|exact Hacc].
    unfold loan_bin in Hbin. destruct (Loan.loanAmount l); try discriminate.
    now apply cut_In in Hbin. }
  intros Hin. specialize (Hgen [] (Forall_nil _)).
  rewrite Forall_forall in Hgen. now apply Hgen.
Qed.

Lemma sample_edges (record : Score.t) :
  In record sample_records ->
  exists edges, sample_edge_range (Score.loan_amount_bin record) = Ok edges.
Proof.
  intros [<-|[<-|[]]]; eexists; vm_compute; reflexivity.
Qed.

Lemma stacked_bar_data_rows_witness :
  sample_records <> []
  /\ (forall record, In record sample_records ->
                     exists edges,
                       sample_edge_range (Score.loan_amount_bin record)
                       = Ok edges)
  /\ (forall d e labels row,
         In row (lender_aggregator d e labels) ->
         In (Row.loan_amount_bin row) labels)
  /\ exists chart,
      _get_stacked_bar_data sample_separator sample_edge_range
        lender_aggregator sample_df sample_records = Ok chart
      /\ forall row,
          In row chart ->
          exists record,
            In record sample_records
            /\ Row.loan_amount_bin row
               = (Score.city record ++ sample_separator
                    ++ Score.loan_amount_bin record)%string.
Proof.
  assert (Hne : sample_records <> []) by discriminate.
  split; [exact Hne|]. split; [exact sample_edges|].
  split; [exact lender_aggregator_labels|].
  exact (proj2 (stacked_bar_data_rows sample_separator sample_edge_range
                  lender_aggregator sample_df sample_records)
               Hne sample_edges lender_aggregator_labels).
Defined.

Lemma stacked_bar_of_selection_witness :
  _get_stacked_bar_data sample_separator sample_edge_range
    lender_aggregator sample_df sample_records
  = Ok [ Row.mk "A" "DOVER  |  $100K - $250K" 8;
         Row.mk "B" "DOVER  |  $100K - $250K" 4;
         Row.mk "C" "SALEM  |  $50K - $100K" 12 ]
  /\ sorted_bin_labels
       (_show_stacked_bar [ Row.mk "A" "DOVER  |  $100K - $250K" 8;
                            Row.mk "B" "DOVER  |  $100K - $250K" 4;
                            Row.mk "C" "SALEM  |  $50K - $100K" 12 ])
     = ["DOVER  |  $100K - $250K"; "SALEM  |  $50K - $100K"]
  /\ (List.length
        (sorted_bin_labels
           (_show_stacked_bar [ Row.mk "A" "DOVER  |  $100K - $250K" 8;
                                Row.mk "B" "DOVER  |  $100K - $250K" 4;
                                Row.mk "C" "SALEM  |  $50K - $100K" 12 ]))
      <= List.length sample_records)%nat.
Proof.
  assert (Hchart : _get_stacked_bar_data sample_separator sample_edge_range
                     lender_aggregator sample_df sample_records
                   = Ok [ Row.mk "A" "DOVER  |  $100K - $250K" 8;
                          Row.mk "B" "DOVER  |  $100K - $250K" 4;
                          Row.mk "C" "SALEM  |  $50K - $100K" 12 ])
    by (vm_compute; reflexivity).
  split; [exact Hchart|]. split; [vm_compute; reflexivity|].
  exact (proj1 (proj2 (proj2 (stacked_bar_of_selection sample_separator
                                sample_edge_range lender_aggregator sample_df
                                sample_records _ lender_aggregator_labels
                                sample_edges Hchart)))).
Defined.

(** ** The page *)

Section RenderPageFacts.
Variable LABEL_SEPARATOR : string.
Variable get_edge_range : string -> result (Z * Z).
Variable LOCATION : string.
Variable BIN_EDGE_TO_LABEL : list (Z * string).
Variable get_lender_to_loan_amount_bins :
  list Loan.t -> list Z -> list string -> list Row.t.
Variable radio_choice : string.
Variable slider_choice : slider -> Z.
Variable toggle_choice : bool.

Lemma render_page_no_data_run :
  run (render_page LABEL_SEPARATOR get_edge_range LOCATION BIN_EDGE_TO_LABEL
         get_lender_to_loan_amount_bins radio_choice slider_choice
         toggle_choice [])
  = ([StH1 "Market Analysis";
      StH2 ("Market Concentration - " ++ LOCATION) true;
      StWrite "";
      StMarkdown (INTRODUCTION_MEASURE ++ String (ascii_of_nat 10)
                    (String (ascii_of_nat 10) INTRODUCTION_USE))],
     Raise KeyError).
Proof. reflexivity. Qed.


Lemma render_page_records_run (prepped_data : list Loan.t)
  (recs : list Score.t) (args : slider) :
  prepped_data <> [] ->
  _get_score_records BIN_EDGE_TO_LABEL get_lender_to_loan_amount_bins
    prepped_data (above_threshold_cities_of prepped_data) = Some recs ->
  slider_of recs = Ok args ->
  let selected :=
    _get_selected_score_records recs (slider_choice args) radio_choice in
  let before := page_header LOCATION prepped_data ++ [slider_event args] in
  let out :=
    run (render_page LABEL_SEPARATOR get_edge_range LOCATION
           BIN_EDGE_TO_LABEL get_lender_to_loan_amount_bins radio_choice
           slider_choice toggle_choice prepped_data) in
  (selected = [] ->
   out = (before ++ [StInfoNamed "no_data_selected"; StFooter], Ok tt))
  /\ (forall columns chart,
         selected <> [] ->
         _show_metrics_selected_data LABEL_SEPARATOR selected = Ok columns ->
         _get_stacked_bar_data LABEL_SEPARATOR get_edge_range
           get_lender_to_loan_amount_bins prepped_data selected = Ok chart ->
         out = (before
                  ++ selection_log radio_choice selected columns chart
                                   toggle_choice
                  ++ [StFooter],
                Ok tt)).
Proof.
  intros Hne Hrecs Hargs selected before out.
  destruct prepped_data as [|l0 t0]; [congruence|].
  unfold above_threshold_cities_of in Hrecs.
  unfold out.
  cbv [render_page run bind emit lift ret _show_introduction _show_slider].
  cbn [app]. rewrite Hrecs, Hargs. cbv iota. fold selected.
  unfold before, page_header, slider_event. split.
  - intros Hsel. rewrite Hsel. cbn [app]. now rewrite <- !app_assoc.
  - intros columns chart Hsel Hcols Hchart.
    destruct selected as [|r rest] eqn:Hs; [congruence|].
    rewrite Hcols, Hchart. unfold selection_log, info_event.
    destruct toggle_choice;
      cbv [_show_df _show_info_stacked_bar emit ret];
      cbn [app]; now rewrite <- !app_assoc.
Qed.

End RenderPageFacts.

Lemma score_records_number_label
  (BIN_EDGE_TO_LABEL : list (Z * string))
  (get_lender_to_loan_amount_bins :
     list Loan.t -> list Z -> list string -> list Row.t)
  (df : list Loan.t) (cities : list string) (recs : list Score.t)
  (rec : Score.t) :
  _get_score_records BIN_EDGE_TO_LABEL get_lender_to_loan_amount_bins
                     df cities = Some recs ->
  In rec recs ->
  Score.hhi rec <> F.FNaN
  /\ In (Score.loan_amount_bin rec) (bin_labels BIN_EDGE_TO_LABEL).
Proof.
  intros Hrecs Hrec.
  destruct (score_records_spec BIN_EDGE_TO_LABEL
              get_lender_to_loan_amount_bins df cities)
    as (recs' & Hrecs' & Hin).
  rewrite Hrecs in Hrecs'. injection Hrecs' as <-.
  apply Hin in Hrec. destruct Hrec as (city & b & _ & Hb & _ & _ & ->).
  cbn [segment_record Score.hhi Score.loan_amount_bin]. split; [|exact Hb].
  rewrite <- (map_map (fun s => (s * s)%Q) F.FNum), sum_nums. discriminate.
Qed.

(** X15: when no city of the frame has 10 loans, the scorer, run on the
    cities [_get_above_threshold_df] returns, returns no score record. *)
Theorem no_record_below_city_threshold
  (BIN_EDGE_TO_LABEL : list (Z * string))
  (get_lender_to_loan_amount_bins :
     list Loan.t -> list Z -> list string -> list Row.t)
  (df : list Loan.t) :
  (forall c, Z.of_nat (List.length (city_group df c)) < 10) ->
  _get_score_records BIN_EDGE_TO_LABEL get_lender_to_loan_amount_bins
                     df (above_threshold_cities_of df) = Some [].
Proof.
  intros Hsmall. rewrite (no_city_above_threshold df Hsmall).
  apply score_records_no_city.
Qed.

Lemma no_record_below_city_threshold_witness :
  (forall c,
      Z.of_nat (List.length (city_group (repeat (loan "LYNN" 150000 "A") 3) c))
      < 10)
  /\ _get_score_records bin_edge_to_label lender_aggregator
       (repeat (loan "LYNN" 150000 "A") 3)
       (above_threshold_cities_of (repeat (loan "LYNN" 150000 "A") 3))
     = Some [].
Proof.
  assert (H : forall c,
             Z.of_nat (List.length
                         (city_group (repeat (loan "LYNN" 150000 "A") 3) c))
             < 10).
  { intros c. unfold city_group. cbn [repeat filter loan Loan.city].
    destruct (String.eqb "LYNN" c); cbn; lia. }
  split; [exact H|].
  exact (no_record_below_city_threshold bin_edge_to_label lender_aggregator
           _ H).
Defined.

Section RenderPageClaims.
Variable LABEL_SEPARATOR : string.
Variable get_edge_range : string -> result (Z * Z).
Variable LOCATION : string.
Variable BIN_EDGE_TO_LABEL : list (Z * string).
Variable get_lender_to_loan_amount_bins :
  list Loan.t -> list Z -> list string -> list Row.t.
Variable radio_choice : string.
Variable slider_choice : slider -> Z.
Variable toggle_choice : bool.


(** X17: [render_page] completes whenever the scorer makes a score record,
    whatever the widgets answer, provided [get_edge_range] has edges for the
    labels of the bin table.  The footer is drawn last, and the "no data"
    notice is drawn exactly when the selection at the chosen threshold is
    empty; the metrics and the chart data are never asked of an empty
    selection. *)
Theorem render_page_completes (prepped_data : list Loan.t)
  (recs : list Score.t) :
  prepped_data <> [] ->
  _get_score_records BIN_EDGE_TO_LABEL get_lender_to_loan_amount_bins
    prepped_data (above_threshold_cities_of prepped_data) = Some recs ->
  recs <> [] ->
  (forall label, In label (bin_labels BIN_EDGE_TO_LABEL) ->
                 exists edges, get_edge_range label = Ok edges) ->
  exists args log,
    slider_of recs = Ok args
    /\ run (render_page LABEL_SEPARATOR get_edge_range LOCATION
              BIN_EDGE_TO_LABEL get_lender_to_loan_amount_bins radio_choice
              slider_choice toggle_choice prepped_data)
       = (page_header LOCATION prepped_data ++ [slider_event args]
            ++ log ++ [StFooter],
          Ok tt)
    /\ (In (StInfoNamed "no_data_selected") log
        <-> _get_selected_score_records recs (slider_choice args)
                                        radio_choice = []).
Proof.
  intros Hne Hrecs Hrne Hedges.
  destruct (slider_of_spec recs Hrne) as (m & _ & _ & _ & Hargs).
  set (args := mk_slider 10 _ 10 _) in *.
  destruct (render_page_records_run LABEL_SEPARATOR get_edge_range LOCATION
              BIN_EDGE_TO_LABEL get_lender_to_loan_amount_bins radio_choice
              slider_choice toggle_choice prepped_data recs args
              Hne Hrecs Hargs) as [Hempty Hfull].
  exists args.
  assert (Hin : forall x,
             In x (_get_selected_score_records recs (slider_choice args)
                                               radio_choice) ->
             In x recs).
  { intros x Hx. apply selected_In_filtered, filtered_records_In in Hx.
    tauto. }
  destruct (_get_selected_score_records recs (slider_choice args)
                                        radio_choice) as [|r rest].
  - exists [StInfoNamed "no_data_selected"].
    split; [exact Hargs|]. split.
    + rewrite (Hempty eq_refl). now rewrite <- !app_assoc.
    + split; [reflexivity|]. intros _. now left.
  - assert (Hnum : Forall (fun x => Score.hhi x <> F.FNaN) (r :: rest)).
    { apply Forall_forall. intros x Hx.
      apply (score_records_number_label _ _ _ _ _ x Hrecs (Hin x Hx)). }
    assert (Hcols : exists columns,
               _show_metrics_selected_data LABEL_SEPARATOR (r :: rest)
               = Ok columns).
    { destruct (show_metrics_spec LABEL_SEPARATOR r rest Hnum)
        as (rmax & rmin & _ & _ & Hshow & _). eexists. exact Hshow. }
    destruct Hcols as (columns & Hshow).
    destruct (amount_bin_level_dfs_spec LABEL_SEPARATOR get_edge_range
                get_lender_to_loan_amount_bins prepped_data (r :: rest))
      as (frames & Hframes & Hlen & _).
    { intros x Hx. apply Hedges.
      apply (score_records_number_label _ _ _ _ _ x Hrecs (Hin x Hx)). }
    assert (Hchart : exists chart,
               _get_stacked_bar_data LABEL_SEPARATOR get_edge_range
                 get_lender_to_loan_amount_bins prepped_data (r :: rest)
               = Ok chart).
    { unfold _get_stacked_bar_data. rewrite Hframes.
      destruct frames; [discriminate Hlen|]. now eexists. }
    destruct Hchart as (chart & Hchart).
    assert (Hcons : r :: rest <> []) by discriminate.
    exists (selection_log radio_choice (r :: rest) columns chart
                          toggle_choice).
    split; [exact Hargs|]. split.
    + rewrite (Hfull columns chart Hcons Hshow Hchart).
      now rewrite <- !app_assoc.
    + split; [|discriminate]. unfold selection_log, info_event.
      intros Hnotice. cbn [app In] in Hnotice.
      repeat (destruct Hnotice as [Hd|Hnotice]; [discriminate Hd|]).
      destruct toggle_choice; cbn [app In] in Hnotice;
        repeat (destruct Hnotice as [Hd|Hnotice]; [discriminate Hd|]);
        contradiction.
Qed.

End RenderPageClaims.

Lemma sample_table_edges (label : string) :
  In label (bin_labels bin_edge_to_label) ->
  exists edges, sample_edge_range label = Ok edges.
Proof.
  intros Hin. vm_compute in Hin.
  repeat (destruct Hin as [<-|Hin]; [eexists; vm_compute; reflexivity|]).
  contradiction.
Qed.


Lemma render_page_completes_witness :
  sample_df <> []
  /\ _get_score_records bin_edge_to_label lender_aggregator sample_df
       (above_threshold_cities_of sample_df) = Some sample_records
  /\ sample_records <> []
  /\ (forall label, In label (bin_labels bin_edge_to_label) ->
                    exists edges, sample_edge_range label = Ok edges)
  /\ exists args log,
      slider_of sample_records = Ok args
      /\ run (render_page sample_separator sample_edge_range "MA"
                bin_edge_to_label lender_aggregator HIGH_HHI_SEGMENT
                slider_at_max true sample_df)
         = (page_header "MA" sample_df ++ [slider_event args]
              ++ log ++ [StFooter],
            Ok tt)
      /\ (In (StInfoNamed "no_data_selected") log
          <-> _get_selected_score_records sample_records (slider_at_max args)
                                          HIGH_HHI_SEGMENT = []).
Proof.
  assert (Hne : sample_df <> []) by discriminate.
  assert (Hrecs : _get_score_records bin_edge_to_label lender_aggregator
                    sample_df (above_threshold_cities_of sample_df)
                  = Some sample_records) by (vm_compute; reflexivity).
  assert (Hrne : sample_records <> []) by discriminate.
  split; [exact Hne|]. split; [exact Hrecs|]. split; [exact Hrne|].
  split; [exact sample_table_edges|].
  exact (render_page_completes sample_separator sample_edge_range "MA"
           bin_edge_to_label lender_aggregator HIGH_HHI_SEGMENT slider_at_max
           true sample_df sample_records Hne Hrecs Hrne sample_table_edges).
Defined.

Lemma scored_cities_reach_threshold_witness :
  exists recs,
    _get_score_records bin_edge_to_label lender_aggregator
                       sample_df (above_threshold_cities_of sample_df)
    = Some recs
    /\ forall rec,
        In rec recs ->
        10 <= Z.of_nat (List.length (city_group sample_df (Score.city rec)))
        /\ city_rows bin_edge_to_label lender_aggregator
                     sample_df (above_threshold_cities_of sample_df)
                     (Score.city rec)
           = lender_rows bin_edge_to_label lender_aggregator
                         (city_group sample_df (Score.city rec)).
Proof.
  exact (scored_cities_reach_threshold bin_edge_to_label lender_aggregator
           sample_df).
Defined.

Lemma city_loan_counts_total_witness :
  city_loan_counts sample_df = [("DOVER", 15); ("LYNN", 3); ("SALEM", 12)]
  /\ Zsum (map snd (city_loan_counts sample_df))
     = Z.of_nat (List.length sample_df).
Proof.
  split; [vm_compute; reflexivity|].
  exact (city_loan_counts_total sample_df).
Defined.

(** ** The scorer: one record per segment *)

Lemma NoDup_flat_map_tagged {X Y K : Type} (tag : Y -> K) (tagx : X -> K)
  (f : X -> list Y) (xs : list X) :
  NoDup (map tagx xs) ->
  (forall x y, In x xs -> In y (f x) -> tag y = tagx x) ->
  (forall x, In x xs -> NoDup (f x)) ->
  NoDup (flat_map f xs).
Proof.
  induction xs as [|x t IH]; intros Hnd Htag Hf; [constructor|].
  cbn [map flat_map] in *. inversion Hnd as [|? ? Hx Ht]; subst.
  apply NoDup_app; [apply Hf; now left| |].
  - apply IH; [assumption| |].
    + intros x' y Hx' Hy. apply Htag; [now right|assumption].
    + intros x' Hx'. apply Hf. now right.
  - intros y Hy Hy'. apply in_flat_map in Hy'.
    destruct Hy' as (x' & Hx' & Hy'). apply Hx.
    rewrite <- (Htag x y (or_introl eq_refl) Hy).
    rewrite (Htag x' y (or_intror Hx') Hy').
    now apply in_map.
Qed.

Lemma flat_map_groupby {R Y : Type} (label : R -> string)
  (records : string * list R -> list Y) (categories : list string)
  (frame : list R) :
  (forall b, records (b, []) = []) ->
  flat_map records (groupby label categories frame)
  = flat_map (fun b => records (b, group label frame b)) categories.
Proof.
  intros Hnil. unfold groupby.
  induction categories as [|c rest IH]; [reflexivity|].
  cbn [flat_map]. rewrite flat_map_app, IH. f_equal.
  destruct (group label frame c) eqn:Hg; [now rewrite Hnil|].
  cbn [flat_map]. apply app_nil_r.
Qed.

Lemma score_city_flat (categories : list string) (city : string)
  (rows : list Row.t) :
  score_city categories city rows
  = Some (flat_map (segment_records city rows) categories).
Proof.
  unfold score_city.
  set (frame := add_std_dev
                  (keep_min_bin_num_loans (add_lender_num_loans_pct rows))).
  set (h := fun g : list Frame.scored =>
              F.sum (map (fun r => F.sq (Frame.lender_num_loans_pct
                                           (Frame.base r))) g)).
  set (records := fun bg : string * list Frame.scored =>
                    match snd bg with
                    | [] => []
                    | first :: _ =>
                        [Score.mk city (fst bg)
                           (Frame.bin_num_loans (Frame.base first))
                           (Frame.bin_num_loans_pct_std_dev first)
                           (h (snd bg))]
                    end).
  rewrite (for_each_total _ records).
  - f_equal. rewrite flat_map_groupby by reflexivity.
    apply flat_map_ext. intros b.
    unfold records, frame, h, segment_records. cbn [fst snd].
    rewrite scored_group. unfold segment_record.
    generalize (eq_refl : segment_counts rows b
                          = map Row.num_loans
                                (group Row.loan_amount_bin rows b)).
    generalize (segment_counts rows b) as counts. intros counts Hc.
    destruct (group Row.loan_amount_bin rows b) as [|r0 rest0]; subst counts.
    + cbn [map]. now destruct (_ <=? _).
    + cbn [map]. destruct (_ <=? _); [|reflexivity].
      unfold shares. cbn [map]. rewrite !map_map. reflexivity.
  - intros [b g] Hin.
    apply groupby_In in Hin. destruct Hin as (Hb & Hg & Hne).
    unfold records. cbn [fst snd]. destruct g as [|first rest]; [congruence|].
    assert (Hs : series_get (hhi_by_bin categories frame) b
                 = Some (h (group scored_bin frame b))).
    { apply (series_get_groupby scored_bin h categories frame b Hb).
      rewrite <- Hg. discriminate. }
    rewrite Hs. now rewrite <- Hg.
Qed.

Lemma segment_records_tag (city : string) (rows : list Row.t) (b : string)
  (rec : Score.t) :
  In rec (segment_records city rows b) -> segment_of rec = (city, b).
Proof.
  unfold segment_records. destruct (segment_counts rows b); [easy|].
  destruct (_ <=? _); [|easy]. now intros [<-|[]].
Qed.

Section OnePerSegment.
Variable BIN_EDGE_TO_LABEL : list (Z * string).
Variable get_lender_to_loan_amount_bins :
  list Loan.t -> list Z -> list string -> list Row.t.
Variable df : list Loan.t.
Variable above_threshold_cities : list string.

Lemma score_records_flat :
  _get_score_records BIN_EDGE_TO_LABEL get_lender_to_loan_amount_bins
                     df above_threshold_cities
  = Some (flat_map
            (fun city =>
               flat_map
                 (segment_records city
                    (city_rows BIN_EDGE_TO_LABEL get_lender_to_loan_amount_bins
                               df above_threshold_cities city))
                 (bin_labels BIN_EDGE_TO_LABEL))
            (city_keys (listed_rows df above_threshold_cities))).
Proof.
  unfold _get_score_records, city_to_df.
  rewrite (for_each_total _
             (fun item : string * list Loan.t =>
                flat_map
                  (segment_records (fst item)
                     (lender_rows BIN_EDGE_TO_LABEL
                        get_lender_to_loan_amount_bins (snd item)))
                  (bin_labels BIN_EDGE_TO_LABEL))).
  - f_equal. rewrite flat_map_concat_map, map_map.
    rewrite <- flat_map_concat_map. reflexivity.
  - intros item _. apply score_city_flat.
Qed.

(** X18: the scorer makes one score record per segment: when the labels of
    the bin table are distinct, no two of the returned records have the same
    city and the same bin. *)
Theorem one_record_per_segment :
  NoDup (bin_labels BIN_EDGE_TO_LABEL) ->
  exists recs,
    _get_score_records BIN_EDGE_TO_LABEL get_lender_to_loan_amount_bins
                       df above_threshold_cities = Some recs
    /\ NoDup (map segment_of recs).
Proof.
  intros Hlabels. eexists. split; [apply score_records_flat|].
  rewrite flat_map_concat_map, concat_map, map_map.
  rewrite <- flat_map_concat_map.
  apply (NoDup_flat_map_tagged fst (fun city : string => city)).
  - rewrite map_id. apply city_keys_NoDup.
  - intros city seg _ Hseg. apply in_map_iff in Hseg.
    destruct Hseg as (rec & <- & Hrec). apply in_flat_map in Hrec.
    destruct Hrec as (b & _ & Hrec).
    now rewrite (segment_records_tag _ _ _ _ Hrec).
  - intros city _. rewrite flat_map_concat_map, concat_map, map_map.
    rewrite <- flat_map_concat_map.
    apply (NoDup_flat_map_tagged snd (fun b : string => b)).
    + now rewrite map_id.
    + intros b seg _ Hseg. apply in_map_iff in Hseg.
      destruct Hseg as (rec & <- & Hrec).
      now rewrite (segment_records_tag _ _ _ _ Hrec).
    + intros b _. unfold segment_records.
      destruct (segment_counts _ b); [constructor|].
      destruct (_ <=? _); repeat constructor. easy.
Qed.

(** X19: the scorer leaves out no segment that qualifies: for a listed city
    that occurs in the frame and a label of the bin table, when the lender
    counts of the segment add up to 10 or more, the scorer returns a record
    for that city and bin with that total. *)
Theorem qualifying_segment_scored (city bin : string) :
  In city above_threshold_cities ->
  In city (map Loan.city df) ->
  In bin (bin_labels BIN_EDGE_TO_LABEL) ->
  10 <= Zsum (segment_counts
                (city_rows BIN_EDGE_TO_LABEL get_lender_to_loan_amount_bins
                           df above_threshold_cities city) bin) ->
  exists recs rec,
    _get_score_records BIN_EDGE_TO_LABEL get_lender_to_loan_amount_bins
                       df above_threshold_cities = Some recs
    /\ In rec recs
    /\ Score.city rec = city
    /\ Score.loan_amount_bin rec = bin
    /\ Score.bin_num_loans rec
       = Zsum (segment_counts
                 (city_rows BIN_EDGE_TO_LABEL get_lender_to_loan_amount_bins
                            df above_threshold_cities city) bin).
Proof.
  intros Hcity Hdf Hbin Hsum.
  destruct (score_records_spec BIN_EDGE_TO_LABEL
              get_lender_to_loan_amount_bins df above_threshold_cities)
    as (recs & Hrecs & Hin).
  exists recs. eexists. split; [exact Hrecs|]. split.
  - apply Hin. exists city, bin. cbv zeta.
    split; [|split; [exact Hbin|split; [|split; [exact Hsum|reflexivity]]]].
    + apply city_keys_In. apply in_map_iff in Hdf.
      destruct Hdf as (l & Hl & Hdf). apply in_map_iff. exists l.
      split; [exact Hl|]. apply listed_rows_In. split; [exact Hdf|].
      now rewrite Hl.
    + intros Hnil. rewrite Hnil in Hsum. cbn in Hsum. lia.
  - repeat split.
Qed.

End OnePerSegment.

Lemma one_record_per_segment_witness :
  NoDup (bin_labels bin_edge_to_label)
  /\ exists recs,
      _get_score_records bin_edge_to_label lender_aggregator sample_df
                         sample_cities = Some recs
      /\ NoDup (map segment_of recs).
Proof.
  assert (H : NoDup (bin_labels bin_edge_to_label)).
  { vm_compute. repeat constructor; cbn; intuition discriminate. }
  split; [exact H|].
  exact (one_record_per_segment bin_edge_to_label lender_aggregator
           sample_df sample_cities H).
Defined.

Lemma qualifying_segment_scored_witness :
  In "DOVER" sample_cities
  /\ In "DOVER" (map Loan.city sample_df)
  /\ In "$100K - $250K" (bin_labels bin_edge_to_label)
  /\ 10 <= Zsum (segment_counts dover_rows "$100K - $250K")
  /\ exists recs rec,
      _get_score_records bin_edge_to_label lender_aggregator sample_df
                         sample_cities = Some recs
      /\ In rec recs
      /\ Score.city rec = "DOVER"
      /\ Score.loan_amount_bin rec = "$100K - $250K"
      /\ Score.bin_num_loans rec
         = Zsum (segment_counts dover_rows "$100K - $250K").
Proof.
  assert (H1 : In "DOVER" sample_cities) by (now left).
  assert (H2 : In "DOVER" (map Loan.city sample_df)) by (now left).
  assert (H3 : In "$100K - $250K" (bin_labels bin_edge_to_label))
    by (vm_compute; tauto).
  assert (H4 : 10 <= Zsum (segment_counts dover_rows "$100K - $250K"))
    by (vm_compute; discriminate).
  split; [exact H1|]. split; [exact H2|]. split; [exact H3|].
  split; [exact H4|].
  exact (qualifying_segment_scored bin_edge_to_label lender_aggregator
           sample_df sample_cities "DOVER" "$100K - $250K" H1 H2 H3 H4).
Defined.

(** ** The two top-10 orders *)






